(** * Verification of [lib/config/config-loader.js]

    A shallow embedding of the configuration loader: the module-level helpers
    [assertValidFilePath], [loadConfigFile] and [calculateConfigArray], and the
    classes [ConfigLoader] and [LegacyConfigLoader].

    Asynchronous functions are run to completion one after the other (no
    interleaving of two pending calls).  A computation is a state transformer
    that yields either a value or a thrown error; the state written before a
    [throw] stays written, as in JavaScript. *)

From Stdlib Require Import ZArith Ascii String.
From stdpp Require Import gmap strings list.

(** ** The POSIX flavour of [node:path]

    The loader calls [path.resolve], [path.dirname], [path.relative] and
    [path.posix.join].  They are modelled after the Node.js implementation
    ([lib/path.js], object [posix]): [normalizeString] works on the segments
    between slashes. *)
Module path.

Definition isPathSeparator (c : ascii) : bool := Ascii.eqb c "/".

(** [String.prototype.split("/")] *)
Fixpoint split (s : string) : list string :=
  match s with
  | EmptyString => [""]
  | String c s' =>
      if isPathSeparator c then "" :: split s'
      else match split s' with
           | x :: r => String c x :: r
           | [] => [String c ""]
           end
  end.

(** One segment of [normalizeString]; [res] is the result so far, last
    segment first. *)
Definition normalize_step (allowAboveRoot : bool)
    (res : list string) (seg : string) : list string :=
  if String.eqb seg "" || String.eqb seg "." then res
  else if String.eqb seg ".." then
    match res with
    | top :: rest =>
        if String.eqb top ".." then
          (if allowAboveRoot then ".." :: res else res)
        else rest
    | [] => if allowAboveRoot then [".."] else []
    end
  else seg :: res.

Definition normalize_segments (allowAboveRoot : bool) (p : string) : list string :=
  rev (fold_left (normalize_step allowAboveRoot) (split p) []).

Definition normalizeString (p : string) (allowAboveRoot : bool) : string :=
  String.concat "/" (normalize_segments allowAboveRoot p).

Definition isAbsolute (p : string) : bool :=
  match p with
  | String c _ => isPathSeparator c
  | EmptyString => false
  end.

(** The last character is a slash. *)
Fixpoint endsWithSeparator (p : string) : bool :=
  match p with
  | EmptyString => false
  | String c rest =>
      match rest with
      | EmptyString => isPathSeparator c
      | String _ _ => endsWithSeparator rest
      end
  end.

(** [posix.normalize] *)
Definition normalize (p : string) : string :=
  if String.eqb p "" then "."
  else
    let isAbs := isAbsolute p in
    let trailingSeparator := endsWithSeparator p in
    let n := normalizeString p (negb isAbs) in
    if String.eqb n "" then
      (if isAbs then "/" else if trailingSeparator then "./" else ".")
    else
      let n' := if trailingSeparator then n +:+ "/" else n in
      if isAbs then "/" +:+ n' else n'.

(** [posix.join(...args)] *)
Definition join (args : list string) : string :=
  match filter (λ a, a ≠ "") args with
  | [] => "."
  | parts => normalize (String.concat "/" parts)
  end.

(** The loop of [posix.resolve]: the arguments are visited from the right,
    then [process.cwd()], until an absolute one is met. *)
Fixpoint resolve_go (rargs : list string) (resolvedPath : string) : string * bool :=
  match rargs with
  | [] => (resolvedPath, false)
  | p :: rest =>
      if String.eqb p "" then resolve_go rest resolvedPath
      else
        let resolvedPath' := p +:+ "/" +:+ resolvedPath in
        if isAbsolute p then (resolvedPath', true)
        else resolve_go rest resolvedPath'
  end.

(** [posix.resolve(...args)], with the value of [process.cwd()] *)
Definition resolve (process_cwd : string) (args : list string) : string :=
  let '(resolvedPath, resolvedAbsolute) :=
    resolve_go (rev args ++ [process_cwd]) "" in
  let n := normalizeString resolvedPath (negb resolvedAbsolute) in
  if resolvedAbsolute then "/" +:+ n
  else if String.eqb n "" then "." else n.

(** The backward scan of [posix.dirname] over the characters at indices
    [length-1 .. 1], given last first; it returns the characters before the
    slash that ends the directory part (still last first). *)
Fixpoint dirname_scan (matchedSlash : bool) (r : list ascii) : option (list ascii) :=
  match r with
  | [] => None
  | c :: r' =>
      if isPathSeparator c then
        (if matchedSlash then dirname_scan true r' else Some r')
      else dirname_scan false r'
  end.

(** [posix.dirname] *)
Definition dirname (p : string) : string :=
  match list_ascii_of_string p with
  | [] => "."
  | c0 :: rest =>
      let hasRoot := isPathSeparator c0 in
      match dirname_scan true (rev rest) with
      | None => if hasRoot then "/" else "."
      | Some [] => if hasRoot then "//" else string_of_list_ascii [c0]
      | Some before => string_of_list_ascii (c0 :: rev before)
      end
  end.

Fixpoint strip_common (xs ys : list string) : list string * list string :=
  match xs, ys with
  | x :: xs', y :: ys' =>
      if String.eqb x y then strip_common xs' ys' else (xs, ys)
  | _, _ => (xs, ys)
  end.

(** [posix.relative(from, to)]: both ends are resolved, the common leading
    segments dropped, one [..] emitted per remaining segment of [from]. *)
Definition relative (process_cwd : string) (from to : string) : string :=
  if String.eqb from to then ""
  else
    let from' := resolve process_cwd [from] in
    let to' := resolve process_cwd [to] in
    if String.eqb from' to' then ""
    else
      let '(up, down) :=
        strip_common (normalize_segments false from')
                     (normalize_segments false to') in
      String.concat "/" (map (λ _, "..") up ++ down).

End path.

(** ** Values, errors and computations *)

#[local] Set Warnings "-register-all".

(** What a config module can export and what a layer can be.  A layer is
    opaque to the loader but for the [{ ignores }] object it builds itself. *)
Inductive value :=
  | VUndefined
  | VObject (name : string)
  | VIgnores (ignores : list string)
  | VArray (elems : list value).

(** JavaScript truthiness of a config value: objects and arrays are truthy. *)
Definition truthy (v : value) : bool :=
  match v with VUndefined => false | _ => true end.

(** The layers pushed for [v]: [push(...v)] when [Array.isArray(v)],
    [push(v)] otherwise. *)
Definition spread_or_single (v : value) : list value :=
  match v with VArray elems => elems | _ => [v] end.

Record JsError := mkError {
  message : string;
  messageTemplate : option string
}.

(** [new Error(msg)] *)
Definition Error (msg : string) : JsError := mkError msg None.

Inductive result (A : Type) :=
  | Ok (a : A)
  | Throw (e : JsError).
Arguments Ok {A} a.
Arguments Throw {A} e.

Definition is_ok {A} (r : result A) : bool :=
  match r with Ok _ => true | Throw _ => false end.

Global Instance result_fmap : FMap result := λ A B f r,
  match r with Ok a => Ok (f a) | Throw e => Throw e end.

(** A computation over a state [S]: the state survives a [throw]. *)
Definition M (S A : Type) : Type := S → result A * S.

Definition ret {S A} (a : A) : M S A := λ s, (Ok a, s).
Definition throw {S A} (e : JsError) : M S A := λ s, (Throw e, s).
Definition bind {S A B} (m : M S A) (k : A → M S B) : M S B :=
  λ s, match m s with
       | (Ok a, s') => k a s'
       | (Throw e, s') => (Throw e, s')
       end.
Definition gets {S A} (f : S → A) : M S A := λ s, (Ok (f s), s).
Definition modify {S} (f : S → S) : M S unit := λ s, (Ok tt, f s).
Definition lift_result {S A} (r : result A) : M S A := λ s, (r, s).

Notation "x <- c1 ;; c2" := (bind c1 (λ x, c2))
  (at level 100, c1 at next level, right associativity).
Notation "c1 ;; c2" := (bind c1 (λ _, c2))
  (at level 100, right associativity).

(** Runs a computation on the first component of a pair of states. *)
Definition in_fst {S L A} (m : M S A) : M (S * L) A :=
  λ s, let '(r, g) := m (fst s) in (r, (g, snd s)).

(** ** The environment *)

(** Modelled from the spec: the configuration-layer container
    [FlatConfigArray] of [lib/config/flat-config-array.js], which is not part
    of the sources at hand.  Per the interface description it is seeded with
    layers, accepts a push of one or many layers in order, and has a
    finalize operation [normalize] treated as opaque.  [fca_id] is the
    identity of the JavaScript object. *)
Record FlatConfigArray := mkFlatConfigArray {
  fca_id : nat;
  fca_basePath : string;
  fca_shouldIgnore : bool;
  fca_items : list value;
  fca_normalized : bool
}.

(** Modelled from the spec: [configs.push(...layers)] of the container, which
    appends the layers in order. *)
Definition push (configs : FlatConfigArray) (layers : list value) : FlatConfigArray :=
  mkFlatConfigArray (fca_id configs) (fca_basePath configs)
    (fca_shouldIgnore configs) (fca_items configs ++ layers)
    (fca_normalized configs).

(** What the outside answers at the time of a call: the file system, the
    module evaluator and the normalization collaborator. *)
Record World := mkWorld {
  process_cwd : string;
  (** the path names an existing regular file *)
  is_file : string → bool;
  (** [(await fs.stat(p)).mtime.getTime()] *)
  stat_mtime : string → result Z;
  (** the default export obtained by executing the file as it is now *)
  evaluate : string → result value;
  (** the file is loaded through the [require] infrastructure *)
  is_commonjs : string → bool;
  (** the outcome of [normalize()] on an array with this base path and items *)
  normalize_items : string → list value → result (list value)
}.

(** Calls that leave the module, in the order they are made. *)
Inductive Event :=
  | EvFindUp (directory : string)
  | EvStat (filePath : string)
  | EvImport (filePath : string) (mtime : Z)
  | EvEvaluate (filePath : string)
  | EvNew (id : nat)
  | EvNormalize (id : nat).

(** The state shared by every loader of the process. *)
Record Process := mkProcess {
  (** the module-level [Map] of the same name *)
  importedConfigFileModificationTime : gmap string Z;
  (** [require.cache], keyed by file path *)
  require_cache : gmap string value;
  (** the import cache, keyed by file URL: path and [mtime] query; it
      remembers the outcome of the first import of an URL, a failure as
      well as a module *)
  import_cache : gmap (string * Z) (result value);
  (** allocation counter for object identities *)
  next_id : nat;
  (** every outside call so far, latest first *)
  trace : list Event
}.

Definition initial_process : Process := mkProcess ∅ ∅ ∅ 0%nat [].

Definition add_event (e : Event) (g : Process) : Process :=
  mkProcess (importedConfigFileModificationTime g) (require_cache g)
    (import_cache g) (next_id g) (e :: trace g).

Definition emit (e : Event) : M Process unit := modify (add_event e).

Definition set_importedConfigFileModificationTime (filePath : string) (mtime : Z)
    : M Process unit :=
  modify (λ g, mkProcess (<[filePath := mtime]> (importedConfigFileModificationTime g))
                 (require_cache g) (import_cache g) (next_id g) (trace g)).

Definition delete_require_cache (filePath : string) : M Process unit :=
  modify (λ g, mkProcess (importedConfigFileModificationTime g)
                 (delete filePath (require_cache g)) (import_cache g)
                 (next_id g) (trace g)).

Definition set_require_cache (filePath : string) (v : value) : M Process unit :=
  modify (λ g, mkProcess (importedConfigFileModificationTime g)
                 (<[filePath := v]> (require_cache g)) (import_cache g)
                 (next_id g) (trace g)).

Definition set_import_cache (url : string * Z) (outcome : result value)
    : M Process unit :=
  modify (λ g, mkProcess (importedConfigFileModificationTime g)
                 (require_cache g) (<[url := outcome]> (import_cache g))
                 (next_id g) (trace g)).

Definition fresh_id : M Process nat :=
  λ g, (Ok (next_id g),
        mkProcess (importedConfigFileModificationTime g) (require_cache g)
          (import_cache g) (S (next_id g)) (trace g)).

(** ** Options *)

(** [configFilePath]: a string, [false], or left undefined. *)
Inductive ConfigFilePathOption :=
  | CfgPath (p : string)
  | CfgFalse
  | CfgUndefined.

Record ConfigLoaderOptions := mkOptions {
  opt_configFilePath : ConfigFilePathOption;
  cwd : string;
  ignoreEnabled : bool;
  baseConfig : option (list value);
  defaultConfigs : option (list value);
  ignorePatterns : option (list string);
  overrideConfig : value
}.

(** ** Helpers of the module *)

Definition FLAT_CONFIG_FILENAMES : list string :=
  ["eslint.config.js"; "eslint.config.mjs"; "eslint.config.cjs"].

(** [filePath] is a string here, so the check is on emptiness alone. *)
Definition checkValidFilePath (filePath : string) : result unit :=
  if String.eqb filePath "" then
    Throw (Error "'filePath' must be a non-empty string")
  else Ok tt.

Definition assertValidFilePath {S} (filePath : string) : M S unit :=
  lift_result (checkValidFilePath filePath).

Section WithWorld.

Context (w : World).

Definition fs_stat (filePath : string) : M Process Z :=
  emit (EvStat filePath) ;;
  lift_result (stat_mtime w filePath).

(** [(await import(fileURL)).default], where [fileURL] is the file URL of
    [filePath] with the query [mtime]: an URL imported before is served from
    the import cache, which replays a remembered failure as it replays a
    module; a CommonJS file goes through [require.cache], where only a
    module that loaded stays. *)
Definition import_default (filePath : string) (mtime : Z) : M Process value :=
  emit (EvImport filePath mtime) ;;
  cached <- gets (λ g, import_cache g !! (filePath, mtime)) ;;
  match cached with
  | Some outcome => lift_result outcome
  | None =>
      outcome <- (if is_commonjs w filePath then
                    required <- gets (λ g, require_cache g !! filePath) ;;
                    match required with
                    | Some v => ret (Ok v)
                    | None =>
                        emit (EvEvaluate filePath) ;;
                        match evaluate w filePath with
                        | Ok v => set_require_cache filePath v ;; ret (Ok v)
                        | Throw e => ret (Throw e)
                        end
                    end
                  else
                    emit (EvEvaluate filePath) ;;
                    ret (evaluate w filePath)) ;;
      set_import_cache (filePath, mtime) outcome ;;
      lift_result outcome
  end.

Definition loadConfigFile (filePath : string) : M Process value :=
  mtime <- fs_stat filePath ;;
  seen <- gets (λ g, importedConfigFileModificationTime g !! filePath) ;;
  (if decide (seen = Some mtime) then ret tt
   else delete_require_cache filePath) ;;
  config <- import_default filePath mtime ;;
  set_importedConfigFileModificationTime filePath mtime ;;
  ret config.

(** Modelled from the spec: [new FlatConfigArray(configs, { basePath,
    shouldIgnore })], which seeds the container with [configs].  The new
    object gets an identity of its own. *)
Definition new_FlatConfigArray (configs : list value) (basePath : string)
    (shouldIgnore : bool) : M Process FlatConfigArray :=
  id <- fresh_id ;;
  emit (EvNew id) ;;
  ret (mkFlatConfigArray id basePath shouldIgnore configs false).

(** Modelled from the spec: [await configs.normalize()], the finalize
    operation of the container; its outcome is the world's to decide, and
    the object stays the same object. *)
Definition normalize (configs : FlatConfigArray) : M Process FlatConfigArray :=
  emit (EvNormalize (fca_id configs)) ;;
  items <- lift_result (normalize_items w (fca_basePath configs) (fca_items configs)) ;;
  ret (mkFlatConfigArray (fca_id configs) (fca_basePath configs)
         (fca_shouldIgnore configs) items true).

(** [s.startsWith(searchString)] *)
Fixpoint startsWith (s searchString : string) {struct searchString} : bool :=
  match searchString with
  | EmptyString => true
  | String c rest =>
      match s with
      | String d s' => Ascii.eqb d c && startsWith s' rest
      | EmptyString => false
      end
  end.

(** [pattern.slice(1)] *)
Definition slice1 (s : string) : string :=
  match s with String _ s' => s' | EmptyString => "" end.

(** The arrow function mapped over the CLI ignore patterns. *)
Definition rebasePattern (relativeIgnorePath pattern : string) : string :=
  let negated := startsWith pattern "!" in
  let basePattern := if negated then slice1 pattern else pattern in
  (if negated then "!" else "") +:+
    path.join [relativeIgnorePath; basePattern].

(** The value of the local [relativeIgnorePatterns]. *)
Definition relativeIgnorePatterns (basePath cwd : string)
    (ignorePatterns : list string) : list string :=
  if String.eqb basePath cwd then ignorePatterns
  else
    let relativeIgnorePath := path.relative (process_cwd w) basePath cwd in
    map (rebasePattern relativeIgnorePath) ignorePatterns.

(** [if (configFilePath)]: a non-empty string. *)
Definition nonempty_path (configFilePath : option string) : option string :=
  match configFilePath with
  | Some p => if String.eqb p "" then None else Some p
  | None => None
  end.

Definition calculateConfigArray (configFilePath : option string)
    (basePath : string) (options : ConfigLoaderOptions)
    : M Process FlatConfigArray :=
  configs <- new_FlatConfigArray (default [] (baseConfig options)) basePath
               (ignoreEnabled options) ;;
  (* load config file *)
  configs <- match nonempty_path configFilePath with
             | Some p =>
                 fileConfig <- loadConfigFile p ;;
                 ret (push configs (spread_or_single fileConfig))
             | None => ret configs
             end ;;
  (* add in any configured defaults *)
  let configs := push configs (default [] (defaultConfigs options)) in
  (* append command line ignore patterns *)
  let configs :=
    match ignorePatterns options with
    | Some patterns =>
        if (0 <? length patterns)%nat then
          push configs
            [VIgnores (relativeIgnorePatterns basePath (cwd options) patterns)]
        else configs
    | None => configs
    end in
  let configs :=
    if truthy (overrideConfig options) then
      push configs (spread_or_single (overrideConfig options))
    else configs in
  normalize configs.

End WithWorld.

(** ** The [find-up] search

    [findUp(names, { cwd })] of the [find-up] package: the directory is
    resolved, then it and each of its parents up to the root are tried in
    turn; in a directory the first name, in the order given, that is a
    regular file wins.  The path returned is absolute. *)
Section FindUp.

Context (w : World).

Fixpoint prefixes {A} (l : list A) : list (list A) :=
  match l with
  | [] => [[]]
  | x :: l' => [] :: map (cons x) (prefixes l')
  end.

(** The directory and all its parents, nearest first, root last. *)
Definition ancestor_directories (directory : string) : list string :=
  let resolved := path.resolve (process_cwd w) [directory] in
  map (λ segs, "/" +:+ String.concat "/" segs)
      (rev (prefixes (path.normalize_segments false resolved))).

Definition locatePath (names : list string) (directory : string) : option string :=
  List.find (λ name, is_file w (path.resolve (process_cwd w) [directory; name]))
            names.

Fixpoint findUp_walk (names : list string) (directories : list string)
    : option string :=
  match directories with
  | [] => None
  | directory :: parents =>
      match locatePath names directory with
      | Some foundPath => Some (path.resolve (process_cwd w) [directory; foundPath])
      | None => findUp_walk names parents
      end
  end.

Definition findUp (names : list string) (cwd : string) : M Process (option string) :=
  emit (EvFindUp cwd) ;;
  ret (findUp_walk names (ancestor_directories cwd)).

End FindUp.

(** The value of [#configFilePaths] entries. *)
Record Location := mkLocation {
  loc_configFilePath : option string;
  loc_basePath : string
}.

(** The error thrown when the search finds nothing. *)
Definition config_file_missing : JsError :=
  mkError "Could not find config file." (Some "config-file-missing").

(** The error thrown by the synchronous accessors. *)
Definition not_found (dirPath : string) : JsError :=
  Error ("Could not find config file for " +:+ dirPath).

(** ** [class ConfigLoader] *)
Module ConfigLoader.

Record t := mk {
  configArrays : gmap (option string) FlatConfigArray;
  configFilePaths : gmap string Location;
  options : ConfigLoaderOptions
}.

(** [new ConfigLoader(options)] *)
Definition new (options : ConfigLoaderOptions) : t := mk ∅ ∅ options.

Definition set_configFilePaths (k : string) (v : Location) : M (Process * t) unit :=
  modify (λ s, (fst s, mk (configArrays (snd s))
                          (<[k := v]> (configFilePaths (snd s)))
                          (options (snd s)))).

Definition set_configArrays (k : option string) (v : FlatConfigArray)
    : M (Process * t) unit :=
  modify (λ s, (fst s, mk (<[k := v]> (configArrays (snd s)))
                          (configFilePaths (snd s))
                          (options (snd s)))).

Section Methods.

Context (w : World).

Definition locateConfigFileToUse (fromDirectory : string)
    : M (Process * t) Location :=
  this <- gets snd ;;
  (* check cache first *)
  match configFilePaths this !! fromDirectory with
  | Some cached => ret cached
  | None =>
      (* determine where to load config file from *)
      let cwd := cwd (options this) in
      location <-
        match opt_configFilePath (options this) with
        | CfgPath overrideConfigFilePath =>
            ret (mkLocation
                   (Some (path.resolve (process_cwd w) [cwd; overrideConfigFilePath]))
                   cwd)
        | CfgUndefined =>
            configFilePath <- in_fst (findUp w FLAT_CONFIG_FILENAMES fromDirectory) ;;
            match nonempty_path configFilePath with
            | None => throw config_file_missing
            | Some found =>
                ret (mkLocation configFilePath
                       (path.resolve (process_cwd w) [cwd; path.dirname found]))
            end
        | CfgFalse => ret (mkLocation None cwd)
        end ;;
      (* cache the result *)
      set_configFilePaths fromDirectory location ;;
      ret location
  end.

Definition calculateConfigArray (configFilePath : option string)
    (basePath : string) : M (Process * t) FlatConfigArray :=
  this <- gets snd ;;
  (* check for cached version first *)
  match configArrays this !! configFilePath with
  | Some cached => ret cached
  | None =>
      configs <- in_fst (calculateConfigArray w configFilePath basePath
                           (options this)) ;;
      (* cache the config array for this instance *)
      set_configArrays configFilePath configs ;;
      ret configs
  end.

Definition findConfigFileForDirectory (dirPath : string)
    : M (Process * t) (option string) :=
  assertValidFilePath dirPath ;;
  this <- gets snd ;;
  let absoluteDirPath := path.resolve (process_cwd w) [cwd (options this); dirPath] in
  location <- locateConfigFileToUse absoluteDirPath ;;
  ret (loc_configFilePath location).

Definition findConfigFileForFile (filePath : string)
    : M (Process * t) (option string) :=
  assertValidFilePath filePath ;;
  findConfigFileForDirectory (path.dirname filePath).

Definition loadConfigArrayForDirectory (dirPath : string)
    : M (Process * t) FlatConfigArray :=
  assertValidFilePath dirPath ;;
  this <- gets snd ;;
  let absoluteDirPath := path.resolve (process_cwd w) [cwd (options this); dirPath] in
  location <- locateConfigFileToUse absoluteDirPath ;;
  calculateConfigArray (loc_configFilePath location) (loc_basePath location).

Definition loadConfigArrayForFile (filePath : string)
    : M (Process * t) FlatConfigArray :=
  assertValidFilePath filePath ;;
  loadConfigArrayForDirectory (path.dirname filePath).

(** Synchronous: reads the two maps, writes nothing.  [Ok None] is the
    JavaScript [undefined]. *)
Definition getCachedConfigArrayForDirectory (this : t) (dirPath : string)
    : result (option FlatConfigArray) :=
  match checkValidFilePath dirPath with
  | Throw e => Throw e
  | Ok _ =>
      let absoluteDirPath :=
        path.resolve (process_cwd w) [cwd (options this); dirPath] in
      match configFilePaths this !! absoluteDirPath with
      | None => Throw (not_found dirPath)
      | Some location => Ok (configArrays this !! loc_configFilePath location)
      end
  end.

Definition getCachedConfigArrayForFile (this : t) (filePath : string)
    : result (option FlatConfigArray) :=
  match checkValidFilePath filePath with
  | Throw e => Throw e
  | Ok _ => getCachedConfigArrayForDirectory this (path.dirname filePath)
  end.

End Methods.

End ConfigLoader.

(** ** [class LegacyConfigLoader extends ConfigLoader]

    The subclass declares private fields and private methods of its own and
    overrides the three directory methods, so the maps of the base class are
    never read or written through it. *)
Module LegacyConfigLoader.

Record t := mk {
  configFilePath : option Location;
  configArray : option FlatConfigArray;
  options : ConfigLoaderOptions
}.

(** [new LegacyConfigLoader(options)] *)
Definition new (options : ConfigLoaderOptions) : t := mk None None options.

Definition set_configFilePath (v : Location) : M (Process * t) unit :=
  modify (λ s, (fst s, mk (Some v) (configArray (snd s)) (options (snd s)))).

Definition set_configArray (v : FlatConfigArray) : M (Process * t) unit :=
  modify (λ s, (fst s, mk (configFilePath (snd s)) (Some v) (options (snd s)))).

Section Methods.

Context (w : World).

Definition locateConfigFileToUse (fromDirectory : string)
    : M (Process * t) Location :=
  this <- gets snd ;;
  (* check cache first *)
  match configFilePath this with
  | Some cached => ret cached
  | None =>
      (* determine where to load config file from *)
      let cwd := cwd (options this) in
      location <-
        match opt_configFilePath (options this) with
        | CfgPath overrideConfigFilePath =>
            ret (mkLocation
                   (Some (path.resolve (process_cwd w) [cwd; overrideConfigFilePath]))
                   cwd)
        | CfgUndefined =>
            configFilePath <- in_fst (findUp w FLAT_CONFIG_FILENAMES fromDirectory) ;;
            match nonempty_path configFilePath with
            | None => throw config_file_missing
            | Some found =>
                ret (mkLocation configFilePath
                       (path.resolve (process_cwd w) [cwd; path.dirname found]))
            end
        | CfgFalse => ret (mkLocation None cwd)
        end ;;
      (* cache the result *)
      set_configFilePath location ;;
      ret location
  end.

Definition calculateConfigArray (configFilePath : option string)
    (basePath : string) : M (Process * t) FlatConfigArray :=
  this <- gets snd ;;
  (* check for cached version first *)
  match configArray this with
  | Some cached => ret cached
  | None =>
      configs <- in_fst (calculateConfigArray w configFilePath basePath
                           (options this)) ;;
      (* cache the config array for this instance *)
      set_configArray configs ;;
      ret configs
  end.

Definition findConfigFileForDirectory (dirPath : string)
    : M (Process * t) (option string) :=
  assertValidFilePath dirPath ;;
  this <- gets snd ;;
  let absoluteDirPath := path.resolve (process_cwd w) [cwd (options this); dirPath] in
  location <- locateConfigFileToUse absoluteDirPath ;;
  ret (loc_configFilePath location).

Definition loadConfigArrayForDirectory (dirPath : string)
    : M (Process * t) FlatConfigArray :=
  assertValidFilePath dirPath ;;
  this <- gets snd ;;
  let absoluteDirPath := path.resolve (process_cwd w) [cwd (options this); dirPath] in
  location <- locateConfigFileToUse absoluteDirPath ;;
  calculateConfigArray (loc_configFilePath location) (loc_basePath location).

Definition getCachedConfigArrayForDirectory (this : t) (dirPath : string)
    : result FlatConfigArray :=
  match checkValidFilePath dirPath with
  | Throw e => Throw e
  | Ok _ =>
      match configArray this with
      | None => Throw (not_found dirPath)
      | Some cached => Ok cached
      end
  end.

(** The three file methods are inherited from [ConfigLoader]; through
    [this] they reach the directory methods overridden above. *)
Definition findConfigFileForFile (filePath : string)
    : M (Process * t) (option string) :=
  assertValidFilePath filePath ;;
  findConfigFileForDirectory (path.dirname filePath).

Definition loadConfigArrayForFile (filePath : string)
    : M (Process * t) FlatConfigArray :=
  assertValidFilePath filePath ;;
  loadConfigArrayForDirectory (path.dirname filePath).

Definition getCachedConfigArrayForFile (this : t) (filePath : string)
    : result FlatConfigArray :=
  match checkValidFilePath filePath with
  | Throw e => Throw e
  | Ok _ => getCachedConfigArrayForDirectory this (path.dirname filePath)
  end.

End Methods.

End LegacyConfigLoader.

(** ** Definitions used in the statements *)

(** The one layer of CLI ignore patterns, or nothing for an absent or empty
    list. *)
Definition cli_ignore_layers (w : World) (basePath : string)
    (options : ConfigLoaderOptions) : list value :=
  match ignorePatterns options with
  | Some patterns =>
      if (0 <? length patterns)%nat then
        [VIgnores (relativeIgnorePatterns w basePath (cwd options) patterns)]
      else []
  | None => []
  end.

Definition override_layers (options : ConfigLoaderOptions) : list value :=
  if truthy (overrideConfig options) then
    spread_or_single (overrideConfig options)
  else [].

(** The array as it stands when [normalize()] is called on it, given the
    layers the config file contributed. *)
Definition assembled (w : World) (id : nat) (basePath : string)
    (options : ConfigLoaderOptions) (fileLayers : list value) : FlatConfigArray :=
  mkFlatConfigArray id basePath (ignoreEnabled options)
    (default [] (baseConfig options) ++ fileLayers ++
     default [] (defaultConfigs options) ++
     cli_ignore_layers w basePath options ++ override_layers options)
    false.

(** A path segment that [normalizeString] keeps as it is. *)
Definition ordinary_segment (seg : string) : bool :=
  negb (String.eqb seg "" || String.eqb seg "." || String.eqb seg "..").

(** A relative path or pattern written without empty, [.] or [..] segments,
    such as [sub], [dist/**] or [keep.js]. *)
Definition plain_path (p : string) : bool :=
  forallb ordinary_segment (path.split p).

(** The process just after [new FlatConfigArray(...)]. *)
Definition after_new (g : Process) : Process :=
  mkProcess (importedConfigFileModificationTime g) (require_cache g)
    (import_cache g) (S (next_id g)) (EvNew (next_id g) :: trace g).

(** A world over a project at [/proj] with one config file, used in the
    examples: the file exports an array of two layers and normalization
    leaves a sequence as it is. *)
Definition project_world (process_cwd : string) : World :=
  mkWorld process_cwd
    (λ p, String.eqb p "/proj/eslint.config.js")
    (λ p, if String.eqb p "/proj/eslint.config.js" then Ok 100%Z
          else Throw (Error "ENOENT: no such file or directory"))
    (λ _, Ok (VArray [VObject "file-a"; VObject "file-b"]))
    (λ _, false)
    (λ _ items, Ok items).

Definition project_options (configFilePath : ConfigFilePathOption) : ConfigLoaderOptions :=
  mkOptions configFilePath "/proj/sub" true
    (Some [VObject "base"]) (Some [VObject "default"])
    (Some ["dist/**"; "!keep.js"]) (VObject "override").

(** What [#locateConfigFileToUse] works out when the directory is not in
    [#configFilePaths]. *)
Definition fresh_location (w : World) (options : ConfigLoaderOptions)
    (fromDirectory : string) : result Location :=
  match opt_configFilePath options with
  | CfgPath overrideConfigFilePath =>
      Ok (mkLocation
            (Some (path.resolve (process_cwd w) [cwd options; overrideConfigFilePath]))
            (cwd options))
  | CfgUndefined =>
      let configFilePath :=
        findUp_walk w FLAT_CONFIG_FILENAMES (ancestor_directories w fromDirectory) in
      match nonempty_path configFilePath with
      | None => Throw config_file_missing
      | Some found =>
          Ok (mkLocation configFilePath
                (path.resolve (process_cwd w) [cwd options; path.dirname found]))
      end
  | CfgFalse => Ok (mkLocation None (cwd options))
  end.

(** The process after the search, if one is made. *)
Definition searched (options : ConfigLoaderOptions) (fromDirectory : string)
    (g : Process) : Process :=
  match opt_configFilePath options with
  | CfgUndefined => add_event (EvFindUp fromDirectory) g
  | _ => g
  end.

(** [path.resolve(this.#options.cwd, dirPath)] *)
Definition absoluteDirPath (w : World) (options : ConfigLoaderOptions)
    (dirPath : string) : string :=
  path.resolve (process_cwd w) [cwd options; dirPath].

Fixpoint count_new (events : list Event) : nat :=
  match events with
  | [] => 0
  | EvNew _ :: rest => S (count_new rest)
  | _ :: rest => count_new rest
  end.

Definition builds (g : Process) : nat := count_new (trace g).

(** The asynchronous methods of the public interface. *)
Inductive Call :=
  | LoadConfigArrayForDirectory (dirPath : string)
  | LoadConfigArrayForFile (filePath : string)
  | FindConfigFileForDirectory (dirPath : string)
  | FindConfigFileForFile (filePath : string).

(** The state a call leaves behind, whatever it returns or throws. *)
Definition perform (w : World) (c : Call) (s : Process * ConfigLoader.t)
    : Process * ConfigLoader.t :=
  match c with
  | LoadConfigArrayForDirectory dirPath =>
      (ConfigLoader.loadConfigArrayForDirectory w dirPath s).2
  | LoadConfigArrayForFile filePath =>
      (ConfigLoader.loadConfigArrayForFile w filePath s).2
  | FindConfigFileForDirectory dirPath =>
      (ConfigLoader.findConfigFileForDirectory w dirPath s).2
  | FindConfigFileForFile filePath =>
      (ConfigLoader.findConfigFileForFile w filePath s).2
  end.

(** Calls made one after the other, each in the world of its time. *)
Definition run (h : list (World * Call)) (s : Process * ConfigLoader.t)
    : Process * ConfigLoader.t :=
  fold_left (λ s wc, perform wc.1 wc.2 s) h s.

(** The directory a call hands to the location step, if its argument passes
    the checks. *)
Definition call_directory (c : Call) : option string :=
  match c with
  | LoadConfigArrayForDirectory dirPath | FindConfigFileForDirectory dirPath =>
      if String.eqb dirPath "" then None else Some dirPath
  | LoadConfigArrayForFile filePath | FindConfigFileForFile filePath =>
      if String.eqb filePath "" then None
      else if String.eqb (path.dirname filePath) "" then None
      else Some (path.dirname filePath)
  end.

(** [#configFilePaths] after the location step for a directory. *)
Definition paths_after (w : World) (dirPath : string) (this : ConfigLoader.t)
    : gmap string Location :=
  let k := absoluteDirPath w (ConfigLoader.options this) dirPath in
  match ConfigLoader.configFilePaths this !! k with
  | Some _ => ConfigLoader.configFilePaths this
  | None =>
      match fresh_location w (ConfigLoader.options this) k with
      | Ok location => <[k := location]> (ConfigLoader.configFilePaths this)
      | Throw _ => ConfigLoader.configFilePaths this
      end
  end.

(** What a call can do to the loader: the options stay, the location of its
    directory may be added, and at most one freshly built array is added
    under the config file path of that location. *)
Definition step_effect (w : World) (dirPath : string)
    (s s' : Process * ConfigLoader.t) : Prop :=
  ConfigLoader.options s'.2 = ConfigLoader.options s.2 ∧
  ConfigLoader.configFilePaths s'.2 = paths_after w dirPath s.2 ∧
  (ConfigLoader.configArrays s'.2 = ConfigLoader.configArrays s.2 ∨
   ∃ location configs g g',
     ConfigLoader.configFilePaths s'.2
       !! absoluteDirPath w (ConfigLoader.options s.2) dirPath = Some location ∧
     ConfigLoader.configArrays s.2 !! loc_configFilePath location = None ∧
     calculateConfigArray w (loc_configFilePath location) (loc_basePath location)
       (ConfigLoader.options s.2) g = (Ok configs, g') ∧
     ConfigLoader.configArrays s'.2
     = <[loc_configFilePath location := configs]> (ConfigLoader.configArrays s.2)).

(** An invariant of the two caches of an instance with options [opts]: [Q]
    holds of every cached location, [R] of every cached array. *)
Definition cache_invariant (opts : ConfigLoaderOptions)
    (Q : string → Location → Prop) (R : FlatConfigArray → Prop)
    (this : ConfigLoader.t) : Prop :=
  ConfigLoader.options this = opts ∧
  (∀ k location, ConfigLoader.configFilePaths this !! k = Some location → Q k location) ∧
  (∀ k configs, ConfigLoader.configArrays this !! k = Some configs → R configs).



(** Some call of the history was made for a path that resolves to the
    directory [key] and got a location for it, from the cache or afresh. *)
Fixpoint ever_located (h : list (World * Call)) (s : Process * ConfigLoader.t)
    (key : string) : bool :=
  match h with
  | [] => false
  | (w, c) :: h' =>
      match call_directory c with
      | Some dirPath =>
          let k := absoluteDirPath w (ConfigLoader.options s.2) dirPath in
          String.eqb k key &&
          is_ok (ConfigLoader.locateConfigFileToUse w k s).1
      | None => false
      end
      || ever_located h' (perform w c s) key
  end.

(** The empty file system: no file exists, nothing can be read or run. *)
Definition empty_world (process_cwd : string) : World :=
  mkWorld process_cwd (λ _, false)
    (λ _, Throw (Error "ENOENT: no such file or directory"))
    (λ _, Throw (Error "Cannot find module"))
    (λ _, false)
    (λ _ items, Ok items).

(** The project's config file is there but throws when executed. *)
Definition broken_world (process_cwd : string) : World :=
  mkWorld process_cwd
    (λ p, String.eqb p "/proj/eslint.config.js")
    (λ p, if String.eqb p "/proj/eslint.config.js" then Ok 100%Z
          else Throw (Error "ENOENT: no such file or directory"))
    (λ _, Throw (Error "SyntaxError: Unexpected token"))
    (λ _, false)
    (λ _ items, Ok items).

(** The project after an edit of its config file: a later modification
    time and another export. *)
Definition edited_world (process_cwd : string) : World :=
  mkWorld process_cwd
    (λ p, String.eqb p "/proj/eslint.config.js")
    (λ p, if String.eqb p "/proj/eslint.config.js" then Ok 200%Z
          else Throw (Error "ENOENT: no such file or directory"))
    (λ _, Ok (VObject "file-edited"))
    (λ _, false)
    (λ _ items, Ok items).

Definition fresh_state (options : ConfigLoaderOptions) : Process * ConfigLoader.t :=
  (initial_process, ConfigLoader.new options).

(** The array built for the project from a fresh process. *)
Definition project_array : FlatConfigArray :=
  mkFlatConfigArray 0 "/proj" true
    [VObject "base"; VObject "file-a"; VObject "file-b"; VObject "default";
     VIgnores ["sub/dist/**"; "!sub/keep.js"]; VObject "override"]
    true.

(** The error thrown by [assertValidFilePath]. *)
Definition invalid_argument : JsError :=
  Error "'filePath' must be a non-empty string".

(** Executions of a config module recorded in a trace. *)
Fixpoint count_evaluate (events : list Event) : nat :=
  match events with
  | [] => 0
  | EvEvaluate _ :: rest => S (count_evaluate rest)
  | _ :: rest => count_evaluate rest
  end.

Definition evaluations (g : Process) : nat := count_evaluate (trace g).

(** A file or directory name: one segment, not empty, not [.] or [..]. *)
Definition is_name (seg : string) : bool :=
  ordinary_segment seg &&
  forallb (λ c, negb (path.isPathSeparator c)) (list_ascii_of_string seg).

(** The absolute path with these segments. *)
Definition from_root (segs : list string) : string :=
  "/" +:+ String.concat "/" segs.

(** A world in which [/proj/eslint.config.js] is a CommonJS module whose
    modification time and export are as given. *)
Definition commonjs_world (mtime : Z) (exported : value) : World :=
  mkWorld "/"
    (λ p, String.eqb p "/proj/eslint.config.js")
    (λ p, if String.eqb p "/proj/eslint.config.js" then Ok mtime
          else Throw (Error "ENOENT: no such file or directory"))
    (λ _, Ok exported)
    (λ _, true)
    (λ _ items, Ok items).

(** A project with a config file at its root and another one in [/proj/sub],
    the latter under two of the candidate names. *)
Definition nested_world : World :=
  mkWorld "/"
    (λ p, String.eqb p "/proj/eslint.config.js" ||
          String.eqb p "/proj/sub/eslint.config.mjs" ||
          String.eqb p "/proj/sub/eslint.config.cjs")
    (λ _, Ok 100%Z)
    (λ p, Ok (VObject p))
    (λ _, false)
    (λ _ items, Ok items).

(** The process once [importedConfigFileModificationTime.set(filePath, mtime)]
    has run. *)
Definition with_mtime (filePath : string) (mtime : Z) (g : Process) : Process :=
  mkProcess (<[filePath := mtime]> (importedConfigFileModificationTime g))
    (require_cache g) (import_cache g) (next_id g) (trace g).

(** The process once [delete require.cache[filePath]] has run. *)
Definition without_required (filePath : string) (g : Process) : Process :=
  mkProcess (importedConfigFileModificationTime g)
    (delete filePath (require_cache g)) (import_cache g) (next_id g) (trace g).

(** * Properties *)

(** ** The path functions on examples *)

Example resolve_ex1 : path.resolve "/home/u" ["/proj"; "sub"] = "/proj/sub".
Proof. reflexivity. Qed.
Example resolve_ex2 : path.resolve "/home/u" ["a/../b"; "./c/"] = "/home/u/b/c".
Proof. reflexivity. Qed.
Example dirname_ex1 : path.dirname "/proj/eslint.config.js" = "/proj".
Proof. reflexivity. Qed.
Example dirname_ex2 : path.dirname "/a" = "/".
Proof. reflexivity. Qed.
Example dirname_ex3 : path.dirname "/a//b" = "/a/".
Proof. reflexivity. Qed.
Example dirname_ex4 : path.dirname "a/b" = "a".
Proof. reflexivity. Qed.
Example dirname_ex5 : path.dirname "//a" = "//".
Proof. reflexivity. Qed.
Example relative_ex1 : path.relative "/" "/proj" "/proj/sub" = "sub".
Proof. reflexivity. Qed.
Example relative_ex2 : path.relative "/" "/proj/b" "/proj/a" = "../a".
Proof. reflexivity. Qed.
Example relative_ex3 : path.relative "/" "/a/b" "/" = "../..".
Proof. reflexivity. Qed.
Example join_ex1 : path.join ["sub"; "dist/**"] = "sub/dist/**".
Proof. reflexivity. Qed.
Example join_ex2 : path.join [""; "dist/"] = "dist/".
Proof. reflexivity. Qed.
Example join_ex3 : path.join ["sub"; "../x"] = "x".
Proof. reflexivity. Qed.

(** ** Reasoning about computations *)

Ltac unfold_m :=
  unfold assertValidFilePath, emit, fresh_id, set_importedConfigFileModificationTime,
    delete_require_cache, set_require_cache, set_import_cache,
    ConfigLoader.set_configFilePaths, ConfigLoader.set_configArrays,
    LegacyConfigLoader.set_configFilePath, LegacyConfigLoader.set_configArray,
    in_fst, bind, ret, throw, gets, modify, lift_result in *.

(** ** The layer sequence handed to normalization *)

Lemma calculateConfigArray_unfold w configFilePath basePath options g :
  calculateConfigArray w configFilePath basePath options g =
  match nonempty_path configFilePath with
  | None => normalize w (assembled w (next_id g) basePath options []) (after_new g)
  | Some p =>
      match loadConfigFile w p (after_new g) with
      | (Ok fileConfig, g1) =>
          normalize w
            (assembled w (next_id g) basePath options (spread_or_single fileConfig)) g1
      | (Throw e, g1) => (Throw e, g1)
      end
  end.
Proof.
  unfold calculateConfigArray, new_FlatConfigArray, assembled, cli_ignore_layers,
    override_layers, after_new.
  unfold bind at 1. unfold bind at 1. unfold fresh_id at 1. unfold bind at 1.
  unfold emit at 1, modify at 1. cbn [fst snd next_id trace
    importedConfigFileModificationTime require_cache import_cache].
  unfold ret at 1.
  destruct (nonempty_path configFilePath) as [p|].
  - unfold bind at 1. unfold bind at 1.
    destruct (loadConfigFile w p _) as [[fileConfig|e] g1]; [|done].
    unfold ret at 1. f_equal.
    destruct (ignorePatterns options) as [patterns|];
      [destruct (0 <? length patterns)%nat|];
      destruct (truthy (overrideConfig options)); unfold push; cbn;
      f_equal; rewrite <- ?app_assoc, ?app_nil_r; done.
  - unfold bind at 1, ret at 1. f_equal.
    destruct (ignorePatterns options) as [patterns|];
      [destruct (0 <? length patterns)%nat|];
      destruct (truthy (overrideConfig options)); unfold push; cbn;
      f_equal; rewrite <- ?app_assoc, ?app_nil_r; done.
Qed.

(** C1.  For every options object and every resolved location, the array on
    which [calculateConfigArray] calls [normalize()] holds, in this order: the
    [baseConfig] layers, the layers of the config file (the elements of an
    exported array in order, a single exported value otherwise, nothing when
    there is no config file path), the [defaultConfigs] layers, one layer with
    the (possibly rebased) CLI ignore patterns when that list is non-empty,
    and the [overrideConfig] layers last.  A failure of the module load is
    raised before any normalization. *)
Theorem C1_layer_order w configFilePath basePath options g :
  calculateConfigArray w configFilePath basePath options g =
  match nonempty_path configFilePath with
  | None =>
      normalize w
        (mkFlatConfigArray (next_id g) basePath (ignoreEnabled options)
           (default [] (baseConfig options) ++ [] ++
            default [] (defaultConfigs options) ++
            cli_ignore_layers w basePath options ++ override_layers options)
           false)
        (after_new g)
  | Some p =>
      match loadConfigFile w p (after_new g) with
      | (Ok fileConfig, g1) =>
          normalize w
            (mkFlatConfigArray (next_id g) basePath (ignoreEnabled options)
               (default [] (baseConfig options) ++
                (match fileConfig with VArray elems => elems | single => [single] end) ++
                default [] (defaultConfigs options) ++
                cli_ignore_layers w basePath options ++ override_layers options)
               false)
            g1
      | (Throw e, g1) => (Throw e, g1)
      end
  end.
Proof.
  rewrite calculateConfigArray_unfold. unfold assembled, spread_or_single.
  destruct (nonempty_path configFilePath) as [p|]; [|done].
  destruct (loadConfigFile w p (after_new g)) as [[fileConfig|e] g1]; [|done].
  by destruct fileConfig.
Qed.

(** ** Joining plain paths *)

Lemma split_cons s : ∃ x r, path.split s = x :: r.
Proof.
  destruct s as [|c s]; cbn; [eauto|].
  destruct (path.isPathSeparator c); [eauto|].
  destruct (path.split s); eauto.
Qed.

Lemma isPathSeparator_true c : path.isPathSeparator c = true → c = "/"%char.
Proof. apply Ascii.eqb_eq. Qed.

Lemma split_app_slash a b :
  path.split (a +:+ String "/" b) = path.split a ++ path.split b.
Proof.
  induction a as [|c a IH]; [done|].
  change (String c a +:+ String "/" b) with (String c (a +:+ String "/" b)).
  cbn [path.split]. rewrite IH.
  destruct (path.isPathSeparator c); [done|].
  by destruct (split_cons a) as (x & r & ->).
Qed.

Lemma concat_cons_cons sep x y r :
  String.concat sep (x :: y :: r) = x +:+ sep +:+ String.concat sep (y :: r).
Proof. reflexivity. Qed.

Lemma concat_split s : String.concat "/" (path.split s) = s.
Proof.
  induction s as [|c s IH]; [done|]. cbn [path.split].
  destruct (path.isPathSeparator c) eqn:Hc.
  - apply isPathSeparator_true in Hc as ->.
    destruct (split_cons s) as (x & r & Hs). rewrite Hs in IH |- *.
    rewrite concat_cons_cons, IH. reflexivity.
  - destruct (split_cons s) as (x & r & Hs). rewrite Hs in IH |- *.
    destruct r as [|y r].
    + cbn in IH |- *. by subst.
    + rewrite concat_cons_cons in IH |- *. rewrite <- IH. reflexivity.
Qed.

Lemma fold_left_ordinary allowAboveRoot segs res :
  forallb ordinary_segment segs = true →
  fold_left (path.normalize_step allowAboveRoot) segs res = rev segs ++ res.
Proof.
  revert res. induction segs as [|seg segs IH]; intros res H; [done|].
  cbn in H. apply andb_true_iff in H as [Hseg Hsegs].
  cbn [fold_left]. rewrite IH by done. cbn [rev]. rewrite <- app_assoc. cbn.
  do 2 f_equal. unfold path.normalize_step, ordinary_segment in *.
  apply negb_true_iff in Hseg. apply orb_false_iff in Hseg as [Hseg H2].
  rewrite Hseg, H2. done.
Qed.

Lemma plain_not_absolute p rest :
  plain_path p = true → path.isAbsolute (p +:+ rest) = false.
Proof.
  unfold plain_path. destruct p as [|c p]; [done|].
  change (String c p +:+ rest) with (String c (p +:+ rest)).
  cbn [path.split path.isAbsolute].
  destruct (path.isPathSeparator c); [done|]. done.
Qed.

Lemma plain_no_trailing_separator p :
  (∃ x, last (path.split p) = Some x ∧ x ≠ "") →
  path.endsWithSeparator p = false.
Proof.
  induction p as [|c p IH]; [done|]. intros (x & Hlast & Hx).
  destruct p as [|c' p'].
  - cbn in Hlast |- *. destruct (path.isPathSeparator c); [|done].
    cbn in Hlast. congruence.
  - change (path.endsWithSeparator (String c (String c' p')))
      with (path.endsWithSeparator (String c' p')).
    remember (String c' p') as q eqn:Hq.
    apply IH. cbn [path.split] in Hlast.
    destruct (split_cons q) as (y & r & Hs).
    rewrite Hs in Hlast |- *.
    destruct (path.isPathSeparator c).
    + exists x. by rewrite last_cons_cons in Hlast.
    + destruct r as [|z r].
      * exists y. split; [done|]. intros ->.
        pose proof (concat_split q) as Hc. rewrite Hs in Hc. by subst.
      * exists x. by rewrite !last_cons_cons in Hlast |- *.
Qed.

Lemma plain_last p :
  plain_path p = true → ∃ x, last (path.split p) = Some x ∧ x ≠ "".
Proof.
  unfold plain_path. intros H.
  destruct (split_cons p) as (y & r & Hs).
  assert (is_Some (last (path.split p))) as [x Hx].
  { rewrite Hs. apply last_is_Some. done. }
  exists x. split; [done|]. intros ->.
  apply last_Some_elem_of in Hx. apply list_elem_of_In in Hx.
  rewrite forallb_forall in H. by specialize (H _ Hx).
Qed.

(** Joining two plain paths puts a slash between them and changes nothing
    else. *)
Lemma join_plain a b :
  plain_path a = true → plain_path b = true →
  path.join [a; b] = a +:+ String "/" b.
Proof.
  intros Ha Hb.
  assert (a ≠ "") as Ha0 by (intros ->; done).
  assert (b ≠ "") as Hb0 by (intros ->; done).
  unfold path.join. rewrite !filter_cons, filter_nil.
  destruct (decide (a ≠ "")); [|done]. destruct (decide (b ≠ "")); [|done].
  change (String.concat "/" [a; b]) with (a +:+ "/" +:+ b).
  change (a +:+ "/" +:+ b) with (a +:+ String "/" b).
  assert (path.normalizeString (a +:+ String "/" b) true = a +:+ String "/" b) as Hn.
  { unfold path.normalizeString, path.normalize_segments.
    rewrite fold_left_ordinary.
    - rewrite app_nil_r, rev_involutive. apply concat_split.
    - rewrite split_app_slash, forallb_app. unfold plain_path in *.
      by rewrite Ha, Hb. }
  unfold path.normalize.
  rewrite (plain_not_absolute _ _ Ha). cbn [negb]. rewrite Hn.
  assert (path.endsWithSeparator (a +:+ String "/" b) = false) as ->.
  { apply plain_no_trailing_separator. apply plain_last. unfold plain_path in *.
    rewrite split_app_slash, forallb_app. by rewrite Ha, Hb. }
  destruct (String.eqb_spec (a +:+ String "/" b) "") as [He|_];
    [by destruct a|done].
Qed.

(** ** Rebasing of the CLI ignore patterns *)

Lemma rebasePattern_negated rel rest :
  rebasePattern rel ("!" +:+ rest) = "!" +:+ path.join [rel; rest].
Proof. reflexivity. Qed.

Lemma rebasePattern_plain rel pattern :
  startsWith pattern "!" = false →
  rebasePattern rel pattern = path.join [rel; pattern].
Proof. intros H. unfold rebasePattern. by rewrite H. Qed.

Lemma lookup_map_Some {A B} (f : A → B) (l : list A) (i : nat) (x : A) :
  l !! i = Some x → map f l !! i = Some (f x).
Proof.
  revert i. induction l as [|y l IH]; intros [|i] H; simplify_eq/=; auto.
Qed.

(** C2.  When [basePath] equals [cwd] the CLI ignore patterns are kept as
    they are; otherwise each pattern is replaced, position by position, by
    the POSIX join of the relative path from [basePath] to [cwd] with the
    pattern, a leading [!] being taken off before the join and put back in
    front.  With [basePath = /proj] and [cwd = /proj/sub], [dist/**] becomes
    [sub/dist/**] and [!keep.js] becomes [!sub/keep.js], and the built array
    carries them as one layer.  When the relative path and the pattern are
    written without empty, [.] or [..] segments the join is the relative
    path, a slash, and the pattern. *)
Theorem C2_ignore_pattern_rebasing w basePath cwd patterns :
  (basePath = cwd → relativeIgnorePatterns w basePath cwd patterns = patterns) ∧
  (basePath ≠ cwd →
   let rel := path.relative (process_cwd w) basePath cwd in
   length (relativeIgnorePatterns w basePath cwd patterns) = length patterns ∧
   ∀ i pattern, patterns !! i = Some pattern →
     (∀ rest, pattern = "!" +:+ rest →
        relativeIgnorePatterns w basePath cwd patterns !! i
        = Some ("!" +:+ path.join [rel; rest])) ∧
     (startsWith pattern "!" = false →
        relativeIgnorePatterns w basePath cwd patterns !! i
        = Some (path.join [rel; pattern])) ∧
     (plain_path rel = true →
      ∀ rest, pattern = "!" +:+ rest → plain_path rest = true →
        relativeIgnorePatterns w basePath cwd patterns !! i
        = Some ("!" +:+ rel +:+ "/" +:+ rest)) ∧
     (plain_path rel = true →
      startsWith pattern "!" = false → plain_path pattern = true →
        relativeIgnorePatterns w basePath cwd patterns !! i
        = Some (rel +:+ "/" +:+ pattern))) ∧
  relativeIgnorePatterns w "/proj" "/proj/sub" ["dist/**"; "!keep.js"]
  = ["sub/dist/**"; "!sub/keep.js"] ∧
  fca_items <$> fst (calculateConfigArray (project_world "/proj/sub")
                  (Some "/proj/eslint.config.js") "/proj"
                  (project_options CfgUndefined) initial_process)
  = Ok [VObject "base"; VObject "file-a"; VObject "file-b"; VObject "default";
        VIgnores ["sub/dist/**"; "!sub/keep.js"]; VObject "override"] ∧
  fca_items <$> fst (calculateConfigArray (project_world "/proj/sub")
                  (Some "/proj/eslint.config.js") "/proj/sub"
                  (project_options (CfgPath "../eslint.config.js")) initial_process)
  = Ok [VObject "base"; VObject "file-a"; VObject "file-b"; VObject "default";
        VIgnores ["dist/**"; "!keep.js"]; VObject "override"].
Proof.
  split; [|split; [|split; [|split]]].
  - intros ->. unfold relativeIgnorePatterns. by rewrite String.eqb_refl.
  - intros Hne rel. unfold relativeIgnorePatterns.
    apply String.eqb_neq in Hne. rewrite Hne. fold rel. split.
    + apply length_map.
    + intros i pattern Hi.
      assert (∀ rest, pattern = "!" +:+ rest →
                map (rebasePattern rel) patterns !! i
                = Some ("!" +:+ path.join [rel; rest])) as Hnegated.
      { intros rest ->. rewrite <- rebasePattern_negated.
        by apply lookup_map_Some. }
      assert (startsWith pattern "!" = false →
              map (rebasePattern rel) patterns !! i
              = Some (path.join [rel; pattern])) as Hplain.
      { intros Hp. rewrite <- (rebasePattern_plain _ _ Hp).
        by apply lookup_map_Some. }
      split; [done|]. split; [done|]. split.
      * intros Hrel rest Hpat Hrest.
        rewrite (Hnegated _ Hpat), (join_plain _ _ Hrel Hrest). reflexivity.
      * intros Hrel Hp Hpattern.
        rewrite (Hplain Hp), (join_plain _ _ Hrel Hpattern). reflexivity.
  - reflexivity.
  - reflexivity.
  - reflexivity.
Qed.

(** ** The two private methods of [ConfigLoader], case by case *)

Lemma locate_cached w d s cached :
  ConfigLoader.configFilePaths s.2 !! d = Some cached →
  ConfigLoader.locateConfigFileToUse w d s = (Ok cached, s).
Proof.
  intros H. unfold ConfigLoader.locateConfigFileToUse. unfold bind at 1, gets at 1.
  by rewrite H.
Qed.

Lemma locate_miss w d s :
  ConfigLoader.configFilePaths s.2 !! d = None →
  ConfigLoader.locateConfigFileToUse w d s =
  match fresh_location w (ConfigLoader.options s.2) d with
  | Ok location =>
      (Ok location,
       (searched (ConfigLoader.options s.2) d s.1,
        ConfigLoader.mk (ConfigLoader.configArrays s.2)
          (<[d := location]> (ConfigLoader.configFilePaths s.2))
          (ConfigLoader.options s.2)))
  | Throw e => (Throw e, (searched (ConfigLoader.options s.2) d s.1, s.2))
  end.
Proof.
  intros H. destruct s as [g this].
  unfold ConfigLoader.locateConfigFileToUse, fresh_location, searched.
  unfold bind at 1, gets at 1. cbn [fst snd] in *. rewrite H.
  destruct (opt_configFilePath (ConfigLoader.options this)); try reflexivity.
  unfold findUp. unfold_m. cbn [fst snd].
  destruct (nonempty_path _); reflexivity.
Qed.

Lemma build_cached w configFilePath basePath s cached :
  ConfigLoader.configArrays s.2 !! configFilePath = Some cached →
  ConfigLoader.calculateConfigArray w configFilePath basePath s = (Ok cached, s).
Proof.
  intros H. unfold ConfigLoader.calculateConfigArray. unfold bind at 1, gets at 1.
  by rewrite H.
Qed.

Lemma build_miss w configFilePath basePath s :
  ConfigLoader.configArrays s.2 !! configFilePath = None →
  ConfigLoader.calculateConfigArray w configFilePath basePath s =
  match calculateConfigArray w configFilePath basePath (ConfigLoader.options s.2) s.1 with
  | (Ok configs, g) =>
      (Ok configs,
       (g, ConfigLoader.mk (<[configFilePath := configs]> (ConfigLoader.configArrays s.2))
              (ConfigLoader.configFilePaths s.2) (ConfigLoader.options s.2)))
  | (Throw e, g) => (Throw e, (g, s.2))
  end.
Proof.
  intros H. destruct s as [g this]. unfold ConfigLoader.calculateConfigArray.
  unfold bind at 1, gets at 1. cbn [fst snd] in *. rewrite H.
  unfold_m. cbn [fst snd].
  destruct (calculateConfigArray _ _ _ _ _) as [[configs|e] g']; reflexivity.
Qed.

Lemma locate_ok_inv w d s location s' :
  ConfigLoader.locateConfigFileToUse w d s = (Ok location, s') →
  ConfigLoader.configFilePaths s'.2 !! d = Some location ∧
  ConfigLoader.configArrays s'.2 = ConfigLoader.configArrays s.2 ∧
  ConfigLoader.options s'.2 = ConfigLoader.options s.2 ∧
  (s'.1 = s.1 ∨ s'.1 = add_event (EvFindUp d) s.1) ∧
  ∀ k, k ≠ d →
    ConfigLoader.configFilePaths s'.2 !! k = ConfigLoader.configFilePaths s.2 !! k.
Proof.
  destruct (ConfigLoader.configFilePaths s.2 !! d) as [cached|] eqn:Hd.
  - rewrite (locate_cached _ _ _ _ Hd). intros [= <- <-]. repeat split; auto.
  - rewrite (locate_miss _ _ _ Hd).
    destruct (fresh_location w _ d) as [loc|e]; intros [= <- <-]; cbn.
    rewrite lookup_insert_eq. repeat split; [|by intros; rewrite lookup_insert_ne].
    unfold searched. destruct (opt_configFilePath _); auto.
Qed.

Lemma locate_throw_inv w d s e s' :
  ConfigLoader.locateConfigFileToUse w d s = (Throw e, s') →
  s'.2 = s.2 ∧ e = config_file_missing ∧
  opt_configFilePath (ConfigLoader.options s.2) = CfgUndefined ∧
  ConfigLoader.configFilePaths s.2 !! d = None ∧
  s'.1 = add_event (EvFindUp d) s.1.
Proof.
  destruct (ConfigLoader.configFilePaths s.2 !! d) as [cached|] eqn:Hd.
  - by rewrite (locate_cached _ _ _ _ Hd).
  - rewrite (locate_miss _ _ _ Hd). unfold fresh_location, searched.
    destruct (opt_configFilePath _); try done.
    destruct (nonempty_path _); [done|]. by intros [= <- <-].
Qed.

Lemma build_ok_inv w configFilePath basePath s configs s' :
  ConfigLoader.calculateConfigArray w configFilePath basePath s = (Ok configs, s') →
  ConfigLoader.configArrays s'.2 !! configFilePath = Some configs ∧
  ConfigLoader.configFilePaths s'.2 = ConfigLoader.configFilePaths s.2 ∧
  ConfigLoader.options s'.2 = ConfigLoader.options s.2 ∧
  ∀ k, k ≠ configFilePath →
    ConfigLoader.configArrays s'.2 !! k = ConfigLoader.configArrays s.2 !! k.
Proof.
  destruct (ConfigLoader.configArrays s.2 !! configFilePath) as [cached|] eqn:Hk.
  - rewrite (build_cached _ _ _ _ _ Hk). intros [= <- <-]. repeat split; auto.
  - rewrite (build_miss _ _ _ _ Hk).
    destruct (calculateConfigArray _ _ _ _ _) as [[c|e] g]; intros [= <- <-]; cbn.
    rewrite lookup_insert_eq. repeat split. by intros; rewrite lookup_insert_ne.
Qed.

Lemma build_throw_inv w configFilePath basePath s e s' :
  ConfigLoader.calculateConfigArray w configFilePath basePath s = (Throw e, s') →
  s'.2 = s.2 ∧ ConfigLoader.configArrays s.2 !! configFilePath = None.
Proof.
  destruct (ConfigLoader.configArrays s.2 !! configFilePath) as [cached|] eqn:Hk.
  - by rewrite (build_cached _ _ _ _ _ Hk).
  - rewrite (build_miss _ _ _ _ Hk).
    destruct (calculateConfigArray _ _ _ _ _) as [[c|e'] g]; by intros [= <- <-].
Qed.

(** ** The public methods in terms of the private ones *)

Lemma checkValidFilePath_ok filePath :
  filePath ≠ "" → checkValidFilePath filePath = Ok tt.
Proof.
  intros H. unfold checkValidFilePath.
  by destruct (String.eqb_spec filePath "").
Qed.

Lemma checkValidFilePath_empty :
  checkValidFilePath "" = Throw (Error "'filePath' must be a non-empty string").
Proof. reflexivity. Qed.

Lemma find_unfold w dirPath s :
  dirPath ≠ "" →
  ConfigLoader.findConfigFileForDirectory w dirPath s =
  match ConfigLoader.locateConfigFileToUse w
          (absoluteDirPath w (ConfigLoader.options s.2) dirPath) s with
  | (Ok location, s') => (Ok (loc_configFilePath location), s')
  | (Throw e, s') => (Throw e, s')
  end.
Proof.
  intros H. unfold ConfigLoader.findConfigFileForDirectory, assertValidFilePath.
  rewrite (checkValidFilePath_ok _ H). unfold_m. reflexivity.
Qed.

Lemma load_unfold w dirPath s :
  dirPath ≠ "" →
  ConfigLoader.loadConfigArrayForDirectory w dirPath s =
  match ConfigLoader.locateConfigFileToUse w
          (absoluteDirPath w (ConfigLoader.options s.2) dirPath) s with
  | (Ok location, s') =>
      ConfigLoader.calculateConfigArray w (loc_configFilePath location)
        (loc_basePath location) s'
  | (Throw e, s') => (Throw e, s')
  end.
Proof.
  intros H. unfold ConfigLoader.loadConfigArrayForDirectory, assertValidFilePath.
  rewrite (checkValidFilePath_ok _ H). unfold_m. reflexivity.
Qed.

Lemma find_empty w s :
  ConfigLoader.findConfigFileForDirectory w "" s =
  (Throw (Error "'filePath' must be a non-empty string"), s).
Proof. reflexivity. Qed.

Lemma load_empty w s :
  ConfigLoader.loadConfigArrayForDirectory w "" s =
  (Throw (Error "'filePath' must be a non-empty string"), s).
Proof. reflexivity. Qed.

Lemma load_ok_nonempty w dirPath s configs s' :
  ConfigLoader.loadConfigArrayForDirectory w dirPath s = (Ok configs, s') →
  dirPath ≠ "".
Proof. intros H ->. by rewrite load_empty in H. Qed.

(** ** Counting builds

    Every run of the module-level [calculateConfigArray] constructs exactly
    one [FlatConfigArray]; the [EvNew] events of the trace count the builds. *)

Lemma loadConfigFile_builds w filePath g :
  builds (loadConfigFile w filePath g).2 = builds g.
Proof.
  unfold loadConfigFile, fs_stat, import_default. unfold_m.
  destruct g as [mt rc ic n tr]. unfold builds. cbn.
  repeat (case_match; simplify_eq/=; try done).
Qed.

Lemma normalize_builds w configs g :
  builds (normalize w configs g).2 = builds g.
Proof.
  unfold normalize. unfold_m. destruct g as [mt rc ic n tr]. unfold builds. cbn.
  by case_match.
Qed.

Lemma calculateConfigArray_builds w configFilePath basePath options g :
  builds (calculateConfigArray w configFilePath basePath options g).2
  = S (builds g).
Proof.
  rewrite calculateConfigArray_unfold.
  destruct (nonempty_path configFilePath) as [p|].
  - pose proof (loadConfigFile_builds w p (after_new g)) as Hl.
    destruct (loadConfigFile w p (after_new g)) as [[fileConfig|e] g1];
      cbn [snd] in *; [rewrite normalize_builds|]; by rewrite Hl.
  - by rewrite normalize_builds.
Qed.

Lemma build_builds w configFilePath basePath s :
  builds (ConfigLoader.calculateConfigArray w configFilePath basePath s).2.1
  ≤ S (builds s.1).
Proof.
  destruct (ConfigLoader.configArrays s.2 !! configFilePath) as [cached|] eqn:Hk.
  - rewrite (build_cached _ _ _ _ _ Hk). cbn. lia.
  - rewrite (build_miss _ _ _ _ Hk).
    pose proof (calculateConfigArray_builds w configFilePath basePath
                  (ConfigLoader.options s.2) s.1) as Hb.
    destruct (calculateConfigArray _ _ _ _ _) as [[c|e] g]; cbn in *; lia.
Qed.

(** ** Histories of calls on one instance *)

Lemma locate_paths_after w dirPath s :
  ConfigLoader.configFilePaths
    (ConfigLoader.locateConfigFileToUse w
       (absoluteDirPath w (ConfigLoader.options s.2) dirPath) s).2.2
  = paths_after w dirPath s.2 ∧
  ConfigLoader.options
    (ConfigLoader.locateConfigFileToUse w
       (absoluteDirPath w (ConfigLoader.options s.2) dirPath) s).2.2
  = ConfigLoader.options s.2 ∧
  ConfigLoader.configArrays
    (ConfigLoader.locateConfigFileToUse w
       (absoluteDirPath w (ConfigLoader.options s.2) dirPath) s).2.2
  = ConfigLoader.configArrays s.2.
Proof.
  unfold paths_after. cbv zeta.
  destruct (ConfigLoader.configFilePaths s.2 !! _) as [cached|] eqn:Hk.
  - by rewrite (locate_cached _ _ _ _ Hk).
  - rewrite (locate_miss _ _ _ Hk). by destruct (fresh_location _ _ _).
Qed.

Lemma find_step w dirPath s :
  dirPath ≠ "" →
  step_effect w dirPath s (ConfigLoader.findConfigFileForDirectory w dirPath s).2.
Proof.
  intros Hd. rewrite (find_unfold _ _ _ Hd).
  destruct (locate_paths_after w dirPath s) as (Hp & Ho & Ha).
  destruct (ConfigLoader.locateConfigFileToUse w _ s) as [[loc|e] s'];
    cbn [fst snd] in *; repeat split; auto.
Qed.

Lemma load_step w dirPath s :
  dirPath ≠ "" →
  step_effect w dirPath s (ConfigLoader.loadConfigArrayForDirectory w dirPath s).2.
Proof.
  intros Hd. rewrite (load_unfold _ _ _ Hd).
  destruct (locate_paths_after w dirPath s) as (Hp & Ho & Ha).
  destruct (ConfigLoader.locateConfigFileToUse w _ s) as [[loc|e] s'] eqn:Hl;
    cbn [fst snd] in *; [|repeat split; auto].
  destruct (locate_ok_inv _ _ _ _ _ Hl) as (Hloc & _).
  destruct (ConfigLoader.configArrays s'.2 !! loc_configFilePath loc)
    as [cached|] eqn:Hk.
  - rewrite (build_cached _ _ _ _ _ Hk). repeat split; auto.
  - rewrite (build_miss _ _ _ _ Hk).
    destruct (calculateConfigArray w _ _ _ s'.1) as [[configs|e] g'] eqn:Hc;
      cbn [fst snd ConfigLoader.options ConfigLoader.configFilePaths
           ConfigLoader.configArrays]; [|repeat split; auto].
    split; [done|]. split; [done|]. right.
    exists loc, configs, s'.1, g'. rewrite <- Ho, <- Ha. by rewrite Ho at 1.
Qed.

Lemma perform_step w c s :
  match call_directory c with
  | Some dirPath => step_effect w dirPath s (perform w c s)
  | None => (perform w c s).2 = s.2
  end.
Proof.
  destruct c as [d|f|d|f]; cbn [call_directory perform].
  - destruct (String.eqb_spec d ""); [by subst|]. by apply load_step.
  - unfold ConfigLoader.loadConfigArrayForFile, assertValidFilePath.
    destruct (String.eqb_spec f ""); [by subst|].
    rewrite (checkValidFilePath_ok _ n). unfold bind at 1, lift_result at 1.
    destruct (String.eqb_spec (path.dirname f) "") as [->|Hd]; [done|].
    by apply load_step.
  - destruct (String.eqb_spec d ""); [by subst|]. by apply find_step.
  - unfold ConfigLoader.findConfigFileForFile, assertValidFilePath.
    destruct (String.eqb_spec f ""); [by subst|].
    rewrite (checkValidFilePath_ok _ n). unfold bind at 1, lift_result at 1.
    destruct (String.eqb_spec (path.dirname f) "") as [->|Hd]; [done|].
    by apply find_step.
Qed.

(** A property of the loader kept by every call made in an admissible world
    is kept by a whole history. *)
Lemma run_invariant (P : World → Prop) (I : ConfigLoader.t → Prop) :
  (∀ w c s, P w → I s.2 → I (perform w c s).2) →
  ∀ h s, Forall (λ wc, P wc.1) h → I s.2 → I (run h s).2.
Proof.
  intros Hstep h. induction h as [|[w c] h IH]; intros s Hall HI; [done|].
  inversion Hall; subst. cbn. apply IH; [done|]. by apply Hstep.
Qed.

Lemma run_options h s :
  ConfigLoader.options (run h s).2 = ConfigLoader.options s.2.
Proof.
  revert s. induction h as [|[w c] h IH]; intros s; [done|].
  cbn. rewrite IH. pose proof (perform_step w c s) as H.
  destruct (call_directory c); [by destruct H|by rewrite H].
Qed.

(** ** Entries are never replaced or evicted *)

Lemma perform_keeps_paths w c s k cached :
  ConfigLoader.configFilePaths s.2 !! k = Some cached →
  ConfigLoader.configFilePaths (perform w c s).2 !! k = Some cached.
Proof.
  intros Hk. pose proof (perform_step w c s) as Hstep.
  destruct (call_directory c) as [d|]; [|by rewrite Hstep].
  destruct Hstep as (_ & -> & _). unfold paths_after. cbv zeta.
  destruct (ConfigLoader.configFilePaths s.2 !! absoluteDirPath _ _ _) eqn:Hd;
    [done|].
  destruct (fresh_location _ _ _); [|done].
  rewrite lookup_insert_ne; [done|]. intros <-. congruence.
Qed.

Lemma perform_keeps_arrays w c s k cached :
  ConfigLoader.configArrays s.2 !! k = Some cached →
  ConfigLoader.configArrays (perform w c s).2 !! k = Some cached.
Proof.
  intros Hk. pose proof (perform_step w c s) as Hstep.
  destruct (call_directory c) as [d|]; [|by rewrite Hstep].
  destruct Hstep as (_ & _ & [-> | (loc & configs & g & g' & _ & Hnone & _ & ->)]);
    [done|].
  rewrite lookup_insert_ne; [done|]. intros <-. congruence.
Qed.

Lemma run_keeps h s :
  (∀ k cached, ConfigLoader.configFilePaths s.2 !! k = Some cached →
               ConfigLoader.configFilePaths (run h s).2 !! k = Some cached) ∧
  (∀ k cached, ConfigLoader.configArrays s.2 !! k = Some cached →
               ConfigLoader.configArrays (run h s).2 !! k = Some cached).
Proof.
  revert s. induction h as [|[w c] h IH]; intros s; [done|].
  cbn [run fold_left fst snd]. fold (run h (perform w c s)).
  destruct (IH (perform w c s)) as (IHp & IHa). split.
  - intros k cached Hk. by apply IHp, perform_keeps_paths.
  - intros k cached Hk. by apply IHa, perform_keeps_arrays.
Qed.

(** ** Sharing of a built array *)

(** After a successful load and any further calls, a load on the same
    instance whose location has the same config file path returns the array
    of the first one, and makes at most a search on the way. *)
Lemma load_shares_source w1 w2 D1 D2 h s0 s1 a1 p :
  ConfigLoader.loadConfigArrayForDirectory w1 D1 s0 = (Ok a1, s1) →
  (ConfigLoader.findConfigFileForDirectory w1 D1 s0).1 = Ok p →
  (ConfigLoader.findConfigFileForDirectory w2 D2 (run h s1)).1 = Ok p →
  ∃ s2,
    ConfigLoader.loadConfigArrayForDirectory w2 D2 (run h s1) = (Ok a1, s2) ∧
    (s2.1 = (run h s1).1 ∨
     s2.1 = add_event
              (EvFindUp (absoluteDirPath w2 (ConfigLoader.options (run h s1).2) D2))
              (run h s1).1) ∧
    ConfigLoader.configArrays s2.2 = ConfigLoader.configArrays (run h s1).2 ∧
    builds s1.1 ≤ S (builds s0.1).
Proof.
  intros Hload Hfind1 Hfind2.
  pose proof (load_ok_nonempty _ _ _ _ _ Hload) as HD1.
  assert (D2 ≠ "") as HD2 by (intros ->; by rewrite find_empty in Hfind2).
  rewrite (load_unfold _ _ _ HD1) in Hload.
  rewrite (find_unfold _ _ _ HD1) in Hfind1.
  rewrite (find_unfold _ _ _ HD2) in Hfind2.
  rewrite (load_unfold _ _ _ HD2).
  destruct (ConfigLoader.locateConfigFileToUse w1 _ s0) as [[loc1|e1] s0'] eqn:Hl1;
    [|done].
  destruct (ConfigLoader.locateConfigFileToUse w2 _ (run h s1))
    as [[loc2|e2] s1'] eqn:Hl2; [|done].
  cbn in Hfind1, Hfind2.
  injection Hfind1 as Hfind1. injection Hfind2 as Hfind2.
  destruct (build_ok_inv _ _ _ _ _ _ Hload) as (Ha1 & _ & _ & _).
  rewrite Hfind1 in Ha1.
  apply (proj2 (run_keeps h s1)) in Ha1.
  destruct (locate_ok_inv _ _ _ _ _ Hl2) as (_ & Harr & _ & Hproc & _).
  destruct (locate_ok_inv _ _ _ _ _ Hl1) as (_ & _ & _ & Hproc1 & _).
  exists s1'. rewrite <- Hfind2 in Ha1. rewrite <- Harr in Ha1.
  rewrite (build_cached _ _ _ _ _ Ha1). repeat split; auto.
  pose proof (build_builds w1 (loc_configFilePath loc1) (loc_basePath loc1) s0') as Hb.
  rewrite Hload in Hb. cbn in Hb.
  destruct Hproc1 as [-> | ->] in Hb; done.
Qed.

(** C3.  With no override configured, when [loadConfigArrayForDirectory(D1)]
    has returned an array and, after any further calls on the instance, the
    search from [D2] resolves to the config file the search from [D1]
    resolved to, [loadConfigArrayForDirectory(D2)] returns that very array
    (same object identity and contents); it builds nothing, and the first
    call built at most once. *)
Theorem C3_same_source_same_instance w1 w2 D1 D2 h s0 s1 a1 p :
  opt_configFilePath (ConfigLoader.options s0.2) = CfgUndefined →
  ConfigLoader.loadConfigArrayForDirectory w1 D1 s0 = (Ok a1, s1) →
  (ConfigLoader.findConfigFileForDirectory w1 D1 s0).1 = Ok p →
  (ConfigLoader.findConfigFileForDirectory w2 D2 (run h s1)).1 = Ok p →
  ∃ s2,
    ConfigLoader.loadConfigArrayForDirectory w2 D2 (run h s1) = (Ok a1, s2) ∧
    builds s2.1 = builds (run h s1).1 ∧
    builds s1.1 ≤ S (builds s0.1) ∧
    ConfigLoader.configArrays s2.2 = ConfigLoader.configArrays (run h s1).2.
Proof.
  intros _ Hload Hfind1 Hfind2.
  destruct (load_shares_source _ _ _ _ _ _ _ _ _ Hload Hfind1 Hfind2)
    as (s2 & Hload2 & Hproc & Harr & Hb).
  exists s2. repeat split; auto.
  by destruct Hproc as [-> | ->].
Qed.

(** C4.  When [loadConfigArrayForDirectory(D)] has returned an array, calling
    it again for [D] on the same instance, at once or after any further
    calls, returns the same array and leaves the process and the loader
    exactly as they were: no [fs.stat], no [import()], no new array.  The
    second call may see any file system, so this holds whether or not the
    modification time of the config file changed in between; only the
    process working directory is taken to stay put. *)
Theorem C4_load_twice w1 w2 D h s0 s1 a :
  process_cwd w2 = process_cwd w1 →
  ConfigLoader.loadConfigArrayForDirectory w1 D s0 = (Ok a, s1) →
  ConfigLoader.loadConfigArrayForDirectory w2 D (run h s1) = (Ok a, run h s1).
Proof.
  intros Hcwd Hload.
  pose proof (load_ok_nonempty _ _ _ _ _ Hload) as HD.
  rewrite (load_unfold _ _ _ HD) in Hload. rewrite (load_unfold _ _ _ HD).
  destruct (ConfigLoader.locateConfigFileToUse w1 _ s0) as [[loc|e] s0'] eqn:Hl;
    [|done].
  destruct (locate_ok_inv _ _ _ _ _ Hl) as (Hloc & _ & Hopt & _ & _).
  destruct (build_ok_inv _ _ _ _ _ _ Hload) as (Ha & Hpaths & Hopt' & _).
  destruct (run_keeps h s1) as (Hkp & Hka).
  unfold absoluteDirPath in *. rewrite run_options, Hcwd, Hopt', Hopt.
  rewrite <- Hpaths in Hloc. apply Hkp in Hloc. apply Hka in Ha.
  rewrite (locate_cached _ _ _ _ Hloc).
  by rewrite (build_cached _ _ _ _ _ Ha).
Qed.

(** ** Invariants of the two caches *)

Section CacheInvariant.

Context (opts : ConfigLoaderOptions).
(** the worlds the calls are made in *)
Context (P : World → Prop).
(** what holds of a cached location, and of a cached array *)
Context (Q : string → Location → Prop) (R : FlatConfigArray → Prop).

Hypothesis fresh_location_Q : ∀ w k location,
  P w → fresh_location w opts k = Ok location → Q k location.

Hypothesis build_R : ∀ w k location g configs g',
  P w → Q k location →
  calculateConfigArray w (loc_configFilePath location) (loc_basePath location)
    opts g = (Ok configs, g') →
  R configs.

Lemma cache_invariant_new : cache_invariant opts Q R (ConfigLoader.new opts).
Proof. by repeat split. Qed.

Lemma cache_invariant_perform w c s :
  P w → cache_invariant opts Q R s.2 → cache_invariant opts Q R (perform w c s).2.
Proof.
  intros Hw (Ho & Hq & Hr). pose proof (perform_step w c s) as Hstep.
  destruct (call_directory c) as [d|]; [|rewrite Hstep; repeat split; eauto].
  destruct Hstep as (Ho' & Hp' & Ha').
  assert (∀ k location,
    ConfigLoader.configFilePaths (perform w c s).2 !! k = Some location →
    Q k location) as Hq'.
  { intros k loc. rewrite Hp'. unfold paths_after. cbv zeta.
    destruct (ConfigLoader.configFilePaths s.2 !! _) eqn:Hk; [apply Hq|].
    destruct (fresh_location _ _ _) as [loc'|e] eqn:Hf; [|apply Hq].
    rewrite lookup_insert. case_decide as Hkk; [|apply Hq].
    intros [= <-]. subst k. rewrite Ho in Hf |- *. by eapply fresh_location_Q. }
  split; [congruence|]. split; [done|].
  destruct Ha' as [-> | (loc & configs & g & g' & Hloc & _ & Hc & ->)]; [done|].
  intros k a. rewrite lookup_insert. case_decide; [|apply Hr].
  intros [= <-]. rewrite Ho in Hc. eapply build_R; eauto.
Qed.

Lemma cache_invariant_run h g0 :
  Forall (λ wc, P wc.1) h →
  cache_invariant opts Q R (run h (g0, ConfigLoader.new opts)).2.
Proof.
  intros Hall.
  apply (run_invariant P (cache_invariant opts Q R) cache_invariant_perform h _ Hall).
  apply cache_invariant_new.
Qed.

End CacheInvariant.

(** ** Override path, disabled config file, exhausted search *)

Lemma fresh_location_override w options P k :
  opt_configFilePath options = CfgPath P →
  fresh_location w options k
  = Ok (mkLocation (Some (path.resolve (process_cwd w) [cwd options; P])) (cwd options)).
Proof. intros H. unfold fresh_location. by rewrite H. Qed.


(** If every cached location and every fresh one is [location], the
    location step returns it. *)
Lemma locate_constant w k s location :
  (∀ cached, ConfigLoader.configFilePaths s.2 !! k = Some cached → cached = location) →
  fresh_location w (ConfigLoader.options s.2) k = Ok location →
  (ConfigLoader.locateConfigFileToUse w k s).1 = Ok location.
Proof.
  intros Hc Hf.
  destruct (ConfigLoader.configFilePaths s.2 !! k) as [cached|] eqn:Hk.
  - rewrite (locate_cached _ _ _ _ Hk). cbn. f_equal. by apply Hc.
  - rewrite (locate_miss _ _ _ Hk). by rewrite Hf.
Qed.

(** C5.  With an override path [P] configured, on an instance that has
    served any calls before (the process working directory staying the
    same), [findConfigFileForDirectory(D)] returns [resolve(cwd, P)] for every
    non-empty [D], and the location resolved for [D] has [cwd] as its base
    path. *)
Theorem C5_override_path options P g0 h w D :
  opt_configFilePath options = CfgPath P →
  Forall (λ wc : World * Call, process_cwd wc.1 = process_cwd w) h →
  D ≠ "" →
  let s := run h (g0, ConfigLoader.new options) in
  (ConfigLoader.findConfigFileForDirectory w D s).1
  = Ok (Some (path.resolve (process_cwd w) [cwd options; P])) ∧
  (ConfigLoader.locateConfigFileToUse w (absoluteDirPath w options D) s).1
  = Ok (mkLocation (Some (path.resolve (process_cwd w) [cwd options; P]))
          (cwd options)).
Proof.
  intros Hopt Hall HD s.
  set (location := mkLocation (Some (path.resolve (process_cwd w) [cwd options; P]))
                     (cwd options)).
  destruct (cache_invariant_run options (λ w', process_cwd w' = process_cwd w)
              (λ _ loc, loc = location) (λ _, True)) with (h := h) (g0 := g0)
    as (Ho & Hq & _); [| done | done |].
  { intros w' k loc Hw'. rewrite (fresh_location_override _ _ _ _ Hopt), Hw'.
    by intros [= <-]. }
  fold s in Ho, Hq.
  assert (∀ k, (ConfigLoader.locateConfigFileToUse w k s).1 = Ok location) as Hl.
  { intros k. apply locate_constant; [apply Hq|].
    rewrite Ho. by apply fresh_location_override. }
  split.
  - rewrite (find_unfold _ _ _ HD).
    specialize (Hl (absoluteDirPath w (ConfigLoader.options s.2) D)).
    destruct (ConfigLoader.locateConfigFileToUse w _ s) as [[loc|e] s']; cbn in *;
      by simplify_eq.
  - apply Hl.
Qed.






(** ** The exhausted search *)

Lemma find_none {A} (f : A → bool) (l : list A) :
  (∀ x, x ∈ l → f x = false) → List.find f l = None.
Proof.
  induction l as [|x l IH]; intros H; [done|]. cbn.
  rewrite (H x) by apply list_elem_of_here.
  apply IH. intros y Hy. apply H. by apply list_elem_of_further.
Qed.

Lemma findUp_walk_none w names directories :
  (∀ directory name, directory ∈ directories → name ∈ names →
     is_file w (path.resolve (process_cwd w) [directory; name]) = false) →
  findUp_walk w names directories = None.
Proof.
  induction directories as [|d ds IH]; intros H; [done|]. cbn.
  unfold locatePath at 1. rewrite find_none.
  - apply IH. intros d' name Hd'. apply H. by apply list_elem_of_further.
  - intros name Hname. apply H; [apply list_elem_of_here|done].
Qed.

Lemma findUp_walk_ext w w' names directories :
  process_cwd w' = process_cwd w →
  (∀ p, is_file w' p = is_file w p) →
  findUp_walk w' names directories = findUp_walk w names directories.
Proof.
  intros Hcwd Hfile. induction directories as [|d ds IH]; [done|]. cbn.
  assert (locatePath w' names d = locatePath w names d) as ->.
  { unfold locatePath. rewrite Hcwd. clear IH.
    induction names as [|n ns IHn]; [done|]. cbn. by rewrite Hfile, IHn. }
  by rewrite Hcwd, IH.
Qed.

Lemma fresh_location_search_fails w options k :
  opt_configFilePath options = CfgUndefined →
  findUp_walk w FLAT_CONFIG_FILENAMES (ancestor_directories w k) = None →
  fresh_location w options k = Throw config_file_missing.
Proof. intros Hopt Hwalk. unfold fresh_location. by rewrite Hopt, Hwalk. Qed.

(** C7.  With no override path and the config file not disabled, when none of
    the candidate file names exists in the directory or in any of its
    ancestors up to the root, and the file system has been like that for
    all the earlier calls on the instance, resolving the location of the
    directory throws the [config-file-missing] error, and so do
    [findConfigFileForDirectory] and [loadConfigArrayForDirectory]. *)
Theorem C7_search_exhausted options g0 h w D :
  opt_configFilePath options = CfgUndefined →
  D ≠ "" →
  Forall (λ wc : World * Call,
            process_cwd wc.1 = process_cwd w ∧ ∀ p, is_file wc.1 p = is_file w p) h →
  (∀ directory name,
     directory ∈ ancestor_directories w (absoluteDirPath w options D) →
     name ∈ FLAT_CONFIG_FILENAMES →
     is_file w (path.resolve (process_cwd w) [directory; name]) = false) →
  let s := run h (g0, ConfigLoader.new options) in
  (ConfigLoader.locateConfigFileToUse w (absoluteDirPath w options D) s).1
  = Throw config_file_missing ∧
  (ConfigLoader.findConfigFileForDirectory w D s).1 = Throw config_file_missing ∧
  (ConfigLoader.loadConfigArrayForDirectory w D s).1 = Throw config_file_missing.
Proof.
  intros Hopt HD Hall Hnone s.
  apply findUp_walk_none in Hnone.
  set (key := absoluteDirPath w options D) in *.
  destruct (cache_invariant_run options
              (λ w', process_cwd w' = process_cwd w ∧ ∀ p, is_file w' p = is_file w p)
              (λ k _, k ≠ key) (λ _, True)) with (h := h) (g0 := g0)
    as (Ho & Hq & _); [| done | done |].
  { intros w' k loc [Hcwd Hfile] Hfresh ->.
    rewrite fresh_location_search_fails in Hfresh; [done..|].
    rewrite (findUp_walk_ext w w') by done.
    unfold ancestor_directories. by rewrite Hcwd. }
  fold s in Ho, Hq.
  assert (ConfigLoader.locateConfigFileToUse w key s
          = (Throw config_file_missing,
             (add_event (EvFindUp key) s.1, s.2))) as Hl.
  { destruct (ConfigLoader.configFilePaths s.2 !! key) as [cached|] eqn:Hk.
    - by destruct (Hq _ _ Hk).
    - rewrite (locate_miss _ _ _ Hk), Ho.
      rewrite fresh_location_search_fails by done.
      unfold searched. by rewrite Hopt. }
  split; [by rewrite Hl|].
  rewrite (find_unfold _ _ _ HD), (load_unfold _ _ _ HD), Ho.
  fold key. by rewrite Hl.
Qed.

(** ** The synchronous accessor *)

Lemma getCached_unfold w this dirPath :
  dirPath ≠ "" →
  ConfigLoader.getCachedConfigArrayForDirectory w this dirPath =
  match ConfigLoader.configFilePaths this
          !! absoluteDirPath w (ConfigLoader.options this) dirPath with
  | None => Throw (not_found dirPath)
  | Some location =>
      Ok (ConfigLoader.configArrays this !! loc_configFilePath location)
  end.
Proof.
  intros H. unfold ConfigLoader.getCachedConfigArrayForDirectory.
  by rewrite (checkValidFilePath_ok _ H).
Qed.

Lemma ever_located_spec h s key :
  is_Some (ConfigLoader.configFilePaths (run h s).2 !! key) ↔
  is_Some (ConfigLoader.configFilePaths s.2 !! key) ∨ ever_located h s key = true.
Proof.
  revert s. induction h as [|[w c] h IH]; intros s.
  { cbn. split; [auto | intros [?|?]; done]. }
  cbn [run fold_left ever_located fst snd]. fold (run h (perform w c s)).
  rewrite IH. rewrite orb_true_iff.
  pose proof (perform_step w c s) as Hstep.
  destruct (call_directory c) as [d|]; [|rewrite Hstep; cbn; intuition done].
  destruct Hstep as (_ & -> & _). unfold paths_after. cbv zeta.
  set (k := absoluteDirPath w (ConfigLoader.options s.2) d).
  rewrite andb_true_iff, String.eqb_eq.
  destruct (ConfigLoader.configFilePaths s.2 !! k) as [cached|] eqn:Hk.
  - rewrite (locate_cached _ _ _ _ Hk). cbn.
    split; [tauto|]. intros [?|[[<- _]|?]]; [tauto| |tauto].
    left. rewrite Hk. eauto.
  - rewrite (locate_miss _ _ _ Hk).
    destruct (fresh_location w _ k) as [loc|e]; cbn.
    + rewrite lookup_insert. case_decide; [|intuition done].
      subst key. rewrite Hk. split; [auto|]. intros _. left. eauto.
    + intuition done.
Qed.

(** C8, as the code has it.  On an instance created with [new] and used for
    any history of calls, [getCachedConfigArrayForDirectory(D)] for a
    non-empty [D] throws the not-found error exactly when no earlier
    [loadConfigArrayFor...] or [findConfigFileFor...] call for a path
    resolving to the same absolute directory as [D] got a location; when one
    did, the accessor throws nothing.  A call for another directory, an
    ancestor included, does not count, nor does a call whose location step
    failed. *)
Theorem C8_not_found_iff_never_located options g0 h w D :
  D ≠ "" →
  let s := run h (g0, ConfigLoader.new options) in
  let located :=
    ever_located h (g0, ConfigLoader.new options) (absoluteDirPath w options D) in
  (ConfigLoader.getCachedConfigArrayForDirectory w s.2 D = Throw (not_found D)
   ↔ located = false) ∧
  (located = true →
   ∃ found, ConfigLoader.getCachedConfigArrayForDirectory w s.2 D = Ok found).
Proof.
  intros HD s located.
  pose proof (ever_located_spec h (g0, ConfigLoader.new options)
                (absoluteDirPath w options D)) as Hspec.
  fold s located in Hspec. cbn [snd ConfigLoader.new ConfigLoader.configFilePaths] in Hspec.
  rewrite lookup_empty in Hspec.
  assert (ConfigLoader.options s.2 = options) as Ho
    by (unfold s; by rewrite run_options).
  rewrite (getCached_unfold _ _ _ HD), Ho.
  destruct (ConfigLoader.configFilePaths s.2 !! _) as [loc|] eqn:Hk.
  - assert (located = true) as ->.
    { destruct Hspec as [Hspec _].
      destruct Hspec as [[? ?]|?]; [by eexists|done..]. }
    split; [done|]. eauto.
  - assert (located = false) as ->.
    { destruct located eqn:Hloc; [|done].
      destruct Hspec as [_ Hspec]. destruct Hspec as [? ?]; [by right|done]. }
    done.
Qed.

(** C8 fails as worded, for two reasons.  After a successful
    [loadConfigArrayForDirectory("/proj")], the directory [/proj/sub] has
    [/proj] as an ancestor and the same config file, yet the accessor throws
    the not-found error for [/proj/sub].  And after a
    [findConfigFileForDirectory("/a")] that threw for want of a config file,
    the accessor still throws the not-found error for [/a] although the call
    was made for it. *)
Lemma C8_counterexample :
  let w := project_world "/proj/sub" in
  let s1 := ConfigLoader.loadConfigArrayForDirectory w "/proj"
              (initial_process, ConfigLoader.new (project_options CfgUndefined)) in
  let w0 := empty_world "/" in
  let s0 := ConfigLoader.findConfigFileForDirectory w0 "/a"
              (initial_process, ConfigLoader.new (project_options CfgUndefined)) in
  (is_ok s1.1 = true ∧
   "/proj" ∈ ancestor_directories w "/proj/sub" ∧
   (ConfigLoader.findConfigFileForDirectory w "/proj" s1.2).1
   = Ok (Some "/proj/eslint.config.js") ∧
   (ConfigLoader.findConfigFileForDirectory w "/proj/sub" s1.2).1
   = Ok (Some "/proj/eslint.config.js") ∧
   ConfigLoader.getCachedConfigArrayForDirectory w s1.2.2 "/proj/sub"
   = Throw (not_found "/proj/sub")) ∧
  (s0.1 = Throw config_file_missing ∧
   ConfigLoader.getCachedConfigArrayForDirectory w0 s0.2.2 "/a"
   = Throw (not_found "/a")).
Proof.
  cbv zeta. repeat split; try (vm_compute; reflexivity).
  vm_compute. apply list_elem_of_further, list_elem_of_here.
Qed.

(** ** Failures and the caches *)

Lemma locate_ok_keeps w k s location s' :
  ConfigLoader.locateConfigFileToUse w k s = (Ok location, s') →
  ∀ k' cached, ConfigLoader.configFilePaths s.2 !! k' = Some cached →
               ConfigLoader.configFilePaths s'.2 !! k' = Some cached.
Proof.
  intros Hl k' cached Hk'.
  destruct (ConfigLoader.configFilePaths s.2 !! k) as [c|] eqn:Hk.
  - rewrite (locate_cached _ _ _ _ Hk) in Hl. by injection Hl as _ <-.
  - destruct (locate_ok_inv _ _ _ _ _ Hl) as (_ & _ & _ & _ & Hother).
    rewrite Hother; [done|]. intros ->. congruence.
Qed.

(** C9.  A location step or a build that throws leaves the instance as it
    was, both maps included, and the key it was asked for has no entry.
    When [findConfigFileForDirectory] throws, the instance is unchanged; when
    [loadConfigArrayForDirectory] throws, [#configArrays] is unchanged and
    every location cached before is still cached.  A later call for the same
    key runs the work again and can succeed: after a search that found no
    file, the next load returns an array once the file is there; after a
    module that threw, the next load returns an array once the file has been
    edited into a sound one. *)
Theorem C9_failure_leaves_caches w s :
  (∀ k e s',
     ConfigLoader.locateConfigFileToUse w k s = (Throw e, s') →
     s'.2 = s.2 ∧ ConfigLoader.configFilePaths s'.2 !! k = None) ∧
  (∀ configFilePath basePath e s',
     ConfigLoader.calculateConfigArray w configFilePath basePath s = (Throw e, s') →
     s'.2 = s.2 ∧ ConfigLoader.configArrays s'.2 !! configFilePath = None) ∧
  (∀ D e s',
     ConfigLoader.findConfigFileForDirectory w D s = (Throw e, s') → s'.2 = s.2) ∧
  (∀ D e s',
     ConfigLoader.loadConfigArrayForDirectory w D s = (Throw e, s') →
     ConfigLoader.configArrays s'.2 = ConfigLoader.configArrays s.2 ∧
     ∀ k cached, ConfigLoader.configFilePaths s.2 !! k = Some cached →
                 ConfigLoader.configFilePaths s'.2 !! k = Some cached) ∧
  (let fresh := (initial_process, ConfigLoader.new (project_options CfgUndefined)) in
   let missing := ConfigLoader.loadConfigArrayForDirectory (empty_world "/") "/proj" fresh in
   let broken := ConfigLoader.loadConfigArrayForDirectory (broken_world "/") "/proj" fresh in
   missing.1 = Throw config_file_missing ∧
   is_ok (ConfigLoader.loadConfigArrayForDirectory (project_world "/") "/proj" missing.2).1
   = true ∧
   broken.1 = Throw (Error "SyntaxError: Unexpected token") ∧
   is_ok (ConfigLoader.loadConfigArrayForDirectory (edited_world "/") "/proj" broken.2).1
   = true).
Proof.
  split; [|split; [|split; [|split]]].
  - intros k e s' Hl.
    destruct (locate_throw_inv _ _ _ _ _ Hl) as (Hs & _ & _ & Hk & _).
    by rewrite Hs.
  - intros cfp bp e s' Hc.
    destruct (build_throw_inv _ _ _ _ _ _ Hc) as (Hs & Hk). by rewrite Hs.
  - intros D e s'. destruct (decide (D = "")) as [->|HD].
    { rewrite find_empty. by intros [= _ <-]. }
    rewrite (find_unfold _ _ _ HD).
    destruct (ConfigLoader.locateConfigFileToUse w _ s) as [[loc|e'] s1] eqn:Hl;
      [done|].
    intros [= _ <-]. by destruct (locate_throw_inv _ _ _ _ _ Hl).
  - intros D e s'. destruct (decide (D = "")) as [->|HD].
    { rewrite load_empty. by intros [= _ <-]. }
    rewrite (load_unfold _ _ _ HD).
    destruct (ConfigLoader.locateConfigFileToUse w _ s) as [[loc|e'] s1] eqn:Hl.
    + intros Hc. destruct (build_throw_inv _ _ _ _ _ _ Hc) as (-> & _).
      destruct (locate_ok_inv _ _ _ _ _ Hl) as (_ & Harr & _).
      split; [done|]. by apply (locate_ok_keeps _ _ _ _ _ Hl).
    + intros [= _ <-]. destruct (locate_throw_inv _ _ _ _ _ Hl) as (-> & _).
      auto.
  - cbv zeta. repeat split; vm_compute; reflexivity.
Qed.

(** C10.  When the location of a non-empty [D] is cached but no array is
    cached for its config file path, the accessor of [ConfigLoader] returns
    [undefined] and throws nothing; the accessor of [LegacyConfigLoader],
    with a location pinned and no array built, throws the not-found
    error. *)
Theorem C10_located_but_not_built w D :
  D ≠ "" →
  (∀ (this : ConfigLoader.t) location,
     ConfigLoader.configFilePaths this
       !! absoluteDirPath w (ConfigLoader.options this) D = Some location →
     ConfigLoader.configArrays this !! loc_configFilePath location = None →
     ConfigLoader.getCachedConfigArrayForDirectory w this D = Ok None) ∧
  (∀ (this : LegacyConfigLoader.t) location,
     LegacyConfigLoader.configFilePath this = Some location →
     LegacyConfigLoader.configArray this = None →
     LegacyConfigLoader.getCachedConfigArrayForDirectory this D
     = Throw (not_found D)).
Proof.
  intros HD. split.
  - intros this location Hloc Harr.
    by rewrite (getCached_unfold _ _ _ HD), Hloc, Harr.
  - intros this location _ Harr.
    unfold LegacyConfigLoader.getCachedConfigArrayForDirectory.
    by rewrite (checkValidFilePath_ok _ HD), Harr.
Qed.

(** ** The theorems at concrete inputs *)

(** C2 at [basePath = /proj], [cwd = /proj/sub]: the negated pattern
    [!keep.js]. *)
Lemma C2_ignore_pattern_rebasing_witness :
  "/proj" ≠ "/proj/sub" ∧
  relativeIgnorePatterns (project_world "/") "/proj" "/proj/sub"
    ["dist/**"; "!keep.js"] !! 1%nat
  = Some ("!" +:+ path.join ["sub"; "keep.js"]).
Proof.
  split; [discriminate|].
  destruct (C2_ignore_pattern_rebasing (project_world "/") "/proj" "/proj/sub"
              ["dist/**"; "!keep.js"]) as (_ & H & _).
  destruct (H ltac:(discriminate)) as (_ & Hi).
  destruct (Hi 1%nat "!keep.js" eq_refl) as (Hneg & _).
  exact (Hneg "keep.js" eq_refl).
Defined.

(** C3 on the project: [/proj/sub/lib] first, then [/proj/sub]. *)
Lemma C3_same_source_same_instance_witness :
  let w := project_world "/proj/sub" in
  let s0 := fresh_state (project_options CfgUndefined) in
  let s1 := (ConfigLoader.loadConfigArrayForDirectory w "/proj/sub/lib" s0).2 in
  ConfigLoader.loadConfigArrayForDirectory w "/proj/sub/lib" s0
  = (Ok project_array, s1) ∧
  ∃ s2,
    ConfigLoader.loadConfigArrayForDirectory w "/proj/sub" s1
    = (Ok project_array, s2) ∧
    builds s2.1 = builds s1.1 ∧
    (builds s1.1 ≤ S (builds s0.1))%nat ∧
    ConfigLoader.configArrays s2.2 = ConfigLoader.configArrays s1.2.
Proof.
  cbv zeta.
  assert (ConfigLoader.loadConfigArrayForDirectory (project_world "/proj/sub")
            "/proj/sub/lib" (fresh_state (project_options CfgUndefined))
          = (Ok project_array,
             (ConfigLoader.loadConfigArrayForDirectory (project_world "/proj/sub")
                "/proj/sub/lib" (fresh_state (project_options CfgUndefined))).2))
    as Hload by (vm_compute; reflexivity).
  split; [exact Hload|].
  apply (C3_same_source_same_instance (project_world "/proj/sub")
           (project_world "/proj/sub") "/proj/sub/lib" "/proj/sub" []
           (fresh_state (project_options CfgUndefined)) _ project_array
           (Some "/proj/eslint.config.js")).
  - reflexivity.
  - exact Hload.
  - vm_compute; reflexivity.
  - vm_compute; reflexivity.
Defined.

(** C4 on the project, the config file being edited between the two calls. *)
Lemma C4_load_twice_witness :
  let s0 := fresh_state (project_options CfgUndefined) in
  let s1 := (ConfigLoader.loadConfigArrayForDirectory (project_world "/proj/sub")
               "/proj" s0).2 in
  process_cwd (edited_world "/proj/sub") = process_cwd (project_world "/proj/sub") ∧
  ConfigLoader.loadConfigArrayForDirectory (project_world "/proj/sub") "/proj" s0
  = (Ok project_array, s1) ∧
  ConfigLoader.loadConfigArrayForDirectory (edited_world "/proj/sub") "/proj" s1
  = (Ok project_array, s1).
Proof.
  cbv zeta.
  assert (ConfigLoader.loadConfigArrayForDirectory (project_world "/proj/sub")
            "/proj" (fresh_state (project_options CfgUndefined))
          = (Ok project_array,
             (ConfigLoader.loadConfigArrayForDirectory (project_world "/proj/sub")
                "/proj" (fresh_state (project_options CfgUndefined))).2))
    as Hload by (vm_compute; reflexivity).
  split; [reflexivity|]. split; [exact Hload|].
  exact (C4_load_twice (project_world "/proj/sub") (edited_world "/proj/sub")
           "/proj" [] _ _ project_array eq_refl Hload).
Defined.

(** C5 with the override path [conf/eslint.config.js] and a directory
    outside the project. *)
Lemma C5_override_path_witness :
  let options := project_options (CfgPath "conf/eslint.config.js") in
  let w := project_world "/proj/sub" in
  let h := [(w, FindConfigFileForDirectory "/proj/sub/lib")] in
  opt_configFilePath options = CfgPath "conf/eslint.config.js" ∧
  Forall (λ wc : World * Call, process_cwd wc.1 = process_cwd w) h ∧
  "/elsewhere" ≠ "" ∧
  (ConfigLoader.findConfigFileForDirectory w "/elsewhere"
     (run h (initial_process, ConfigLoader.new options))).1
  = Ok (Some "/proj/sub/conf/eslint.config.js").
Proof.
  cbv zeta.
  assert (Forall (λ wc : World * Call,
                    process_cwd wc.1 = process_cwd (project_world "/proj/sub"))
            [(project_world "/proj/sub", FindConfigFileForDirectory "/proj/sub/lib")])
    as Hall by (constructor; [reflexivity | constructor]).
  split; [reflexivity|]. split; [exact Hall|]. split; [discriminate|].
  exact (proj1 (C5_override_path
                  (project_options (CfgPath "conf/eslint.config.js"))
                  "conf/eslint.config.js" initial_process _
                  (project_world "/proj/sub") "/elsewhere"
                  eq_refl Hall ltac:(discriminate))).
Defined.


(** C7 from [/a/b/c] on an empty file system. *)
Lemma C7_search_exhausted_witness :
  let options := project_options CfgUndefined in
  let w := empty_world "/" in
  let h := [(w, FindConfigFileForDirectory "/a/b")] in
  opt_configFilePath options = CfgUndefined ∧
  "/a/b/c" ≠ "" ∧
  Forall (λ wc : World * Call,
            process_cwd wc.1 = process_cwd w ∧ ∀ p, is_file wc.1 p = is_file w p) h ∧
  (∀ directory name,
     directory ∈ ancestor_directories w (absoluteDirPath w options "/a/b/c") →
     name ∈ FLAT_CONFIG_FILENAMES →
     is_file w (path.resolve (process_cwd w) [directory; name]) = false) ∧
  (ConfigLoader.loadConfigArrayForDirectory w "/a/b/c"
     (run h (initial_process, ConfigLoader.new options))).1
  = Throw config_file_missing.
Proof.
  cbv zeta.
  assert (Forall (λ wc : World * Call,
                    process_cwd wc.1 = process_cwd (empty_world "/") ∧
                    ∀ p, is_file wc.1 p = is_file (empty_world "/") p)
            [(empty_world "/", FindConfigFileForDirectory "/a/b")])
    as Hall by (constructor; [split; [reflexivity | intros p; reflexivity]
                             | constructor]).
  assert (∀ directory name,
            directory ∈ ancestor_directories (empty_world "/")
                          (absoluteDirPath (empty_world "/")
                             (project_options CfgUndefined) "/a/b/c") →
            name ∈ FLAT_CONFIG_FILENAMES →
            is_file (empty_world "/")
              (path.resolve (process_cwd (empty_world "/")) [directory; name])
            = false)
    as Hnone by (intros directory name _ _; reflexivity).
  split; [reflexivity|]. split; [discriminate|].
  split; [exact Hall|]. split; [exact Hnone|].
  exact (proj2 (proj2 (C7_search_exhausted (project_options CfgUndefined)
                         initial_process _ (empty_world "/") "/a/b/c"
                         eq_refl ltac:(discriminate) Hall Hnone))).
Defined.

(** C8 after a load for the very directory asked for. *)
Lemma C8_not_found_iff_never_located_witness :
  let options := project_options CfgUndefined in
  let w := project_world "/proj/sub" in
  let h := [(w, LoadConfigArrayForDirectory "/proj")] in
  "/proj" ≠ "" ∧
  ∃ found,
    ConfigLoader.getCachedConfigArrayForDirectory w
      (run h (initial_process, ConfigLoader.new options)).2 "/proj" = Ok found.
Proof.
  cbv zeta. split; [discriminate|].
  apply (proj2 (C8_not_found_iff_never_located (project_options CfgUndefined)
                  initial_process
                  [(project_world "/proj/sub", LoadConfigArrayForDirectory "/proj")]
                  (project_world "/proj/sub") "/proj" ltac:(discriminate))).
  vm_compute; reflexivity.
Defined.

(** C9 when the config file of the project throws on execution. *)
Lemma C9_failure_leaves_caches_witness :
  let s := fresh_state (project_options CfgUndefined) in
  let r := ConfigLoader.loadConfigArrayForDirectory (broken_world "/") "/proj" s in
  r = (Throw (Error "SyntaxError: Unexpected token"), r.2) ∧
  ConfigLoader.configArrays r.2.2 = ConfigLoader.configArrays s.2.
Proof.
  cbv zeta.
  assert (ConfigLoader.loadConfigArrayForDirectory (broken_world "/") "/proj"
            (fresh_state (project_options CfgUndefined))
          = (Throw (Error "SyntaxError: Unexpected token"),
             (ConfigLoader.loadConfigArrayForDirectory (broken_world "/") "/proj"
                (fresh_state (project_options CfgUndefined))).2))
    as Hload by (vm_compute; reflexivity).
  split; [exact Hload|].
  destruct (C9_failure_leaves_caches (broken_world "/")
              (fresh_state (project_options CfgUndefined)))
    as (_ & _ & _ & Hpublic & _).
  exact (proj1 (Hpublic "/proj" _ _ Hload)).
Defined.

(** C10 after [findConfigFileForDirectory("/proj")] alone, on each of the two
    classes. *)
Lemma C10_located_but_not_built_witness :
  let w := project_world "/proj/sub" in
  let this := (ConfigLoader.findConfigFileForDirectory w "/proj"
                 (fresh_state (project_options CfgUndefined))).2.2 in
  let legacy := (LegacyConfigLoader.findConfigFileForDirectory w "/proj"
                   (initial_process,
                    LegacyConfigLoader.new (project_options CfgUndefined))).2.2 in
  let location := mkLocation (Some "/proj/eslint.config.js") "/proj" in
  "/proj" ≠ "" ∧
  ConfigLoader.configFilePaths this
    !! absoluteDirPath w (ConfigLoader.options this) "/proj" = Some location ∧
  ConfigLoader.configArrays this !! loc_configFilePath location = None ∧
  LegacyConfigLoader.configFilePath legacy = Some location ∧
  LegacyConfigLoader.configArray legacy = None ∧
  ConfigLoader.getCachedConfigArrayForDirectory w this "/proj" = Ok None ∧
  LegacyConfigLoader.getCachedConfigArrayForDirectory legacy "/proj"
  = Throw (not_found "/proj").
Proof.
  cbv zeta.
  destruct (C10_located_but_not_built (project_world "/proj/sub") "/proj"
              ltac:(discriminate)) as (Hloader & Hlegacy).
  split; [discriminate|].
  split; [vm_compute; reflexivity|]. split; [vm_compute; reflexivity|].
  split; [vm_compute; reflexivity|]. split; [vm_compute; reflexivity|].
  split.
  - apply (Hloader _ (mkLocation (Some "/proj/eslint.config.js") "/proj"));
      vm_compute; reflexivity.
  - apply (Hlegacy _ (mkLocation (Some "/proj/eslint.config.js") "/proj"));
      vm_compute; reflexivity.
Defined.

(** * Further properties of the loader *)

(** ** Path arguments *)

Lemma dirname_nonempty p : path.dirname p ≠ "".
Proof.
  unfold path.dirname. destruct (list_ascii_of_string p) as [|c0 rest]; [done|].
  destruct (path.dirname_scan true (rev rest)) as [[|b before]|];
    by destruct (path.isPathSeparator c0).
Qed.

Lemma find_file_unfold w filePath s :
  filePath ≠ "" →
  ConfigLoader.findConfigFileForFile w filePath s
  = ConfigLoader.findConfigFileForDirectory w (path.dirname filePath) s.
Proof.
  intros H. unfold ConfigLoader.findConfigFileForFile, assertValidFilePath.
  by rewrite (checkValidFilePath_ok _ H).
Qed.

Lemma load_file_unfold w filePath s :
  filePath ≠ "" →
  ConfigLoader.loadConfigArrayForFile w filePath s
  = ConfigLoader.loadConfigArrayForDirectory w (path.dirname filePath) s.
Proof.
  intros H. unfold ConfigLoader.loadConfigArrayForFile, assertValidFilePath.
  by rewrite (checkValidFilePath_ok _ H).
Qed.

Lemma find_not_invalid w dirPath s :
  dirPath ≠ "" →
  (ConfigLoader.findConfigFileForDirectory w dirPath s).1 ≠ Throw invalid_argument.
Proof.
  intros H. rewrite (find_unfold _ _ _ H).
  destruct (ConfigLoader.locateConfigFileToUse w _ s) as [[loc|e] s'] eqn:Hl;
    [done|].
  destruct (locate_throw_inv _ _ _ _ _ Hl) as (_ & -> & _). done.
Qed.

Lemma getCached_not_invalid w this dirPath :
  dirPath ≠ "" →
  ConfigLoader.getCachedConfigArrayForDirectory w this dirPath
  ≠ Throw invalid_argument.
Proof.
  intros H. rewrite (getCached_unfold _ _ _ H).
  by destruct (ConfigLoader.configFilePaths this !! _).
Qed.

(** X1.  Every method of either class that takes a path throws the
    non-empty-string error on the empty path and, when asynchronous, leaves
    the process and the instance as they were.  On a non-empty path the
    find methods and the synchronous accessors of [ConfigLoader] never throw
    that error: the directory name handed on by a file method is never
    empty. *)
Theorem X1_empty_path_rejected w (s : Process * ConfigLoader.t)
    (ls : Process * LegacyConfigLoader.t) :
  (ConfigLoader.findConfigFileForDirectory w "" s = (Throw invalid_argument, s) ∧
   ConfigLoader.findConfigFileForFile w "" s = (Throw invalid_argument, s) ∧
   ConfigLoader.loadConfigArrayForDirectory w "" s = (Throw invalid_argument, s) ∧
   ConfigLoader.loadConfigArrayForFile w "" s = (Throw invalid_argument, s) ∧
   ConfigLoader.getCachedConfigArrayForDirectory w s.2 "" = Throw invalid_argument ∧
   ConfigLoader.getCachedConfigArrayForFile w s.2 "" = Throw invalid_argument) ∧
  (LegacyConfigLoader.findConfigFileForDirectory w "" ls = (Throw invalid_argument, ls) ∧
   LegacyConfigLoader.findConfigFileForFile w "" ls = (Throw invalid_argument, ls) ∧
   LegacyConfigLoader.loadConfigArrayForDirectory w "" ls = (Throw invalid_argument, ls) ∧
   LegacyConfigLoader.loadConfigArrayForFile w "" ls = (Throw invalid_argument, ls) ∧
   LegacyConfigLoader.getCachedConfigArrayForDirectory ls.2 "" = Throw invalid_argument ∧
   LegacyConfigLoader.getCachedConfigArrayForFile ls.2 "" = Throw invalid_argument) ∧
  (∀ p, p ≠ "" →
     (ConfigLoader.findConfigFileForDirectory w p s).1 ≠ Throw invalid_argument ∧
     (ConfigLoader.findConfigFileForFile w p s).1 ≠ Throw invalid_argument ∧
     ConfigLoader.getCachedConfigArrayForDirectory w s.2 p ≠ Throw invalid_argument ∧
     ConfigLoader.getCachedConfigArrayForFile w s.2 p ≠ Throw invalid_argument).
Proof.
  split; [by repeat split|]. split; [by repeat split|].
  intros p Hp. split; [by apply find_not_invalid|]. split.
  - rewrite (find_file_unfold _ _ _ Hp). apply find_not_invalid, dirname_nonempty.
  - split; [by apply getCached_not_invalid|].
    unfold ConfigLoader.getCachedConfigArrayForFile.
    rewrite (checkValidFilePath_ok _ Hp).
    apply getCached_not_invalid, dirname_nonempty.
Qed.

(** X1 at the path [/proj/a.js]. *)
Lemma X1_empty_path_rejected_witness :
  "/proj/a.js" ≠ "" ∧
  (ConfigLoader.findConfigFileForFile (project_world "/") "/proj/a.js"
     (fresh_state (project_options CfgUndefined))).1 ≠ Throw invalid_argument.
Proof.
  split; [discriminate|].
  destruct (X1_empty_path_rejected (project_world "/")
              (fresh_state (project_options CfgUndefined))
              (initial_process, LegacyConfigLoader.new (project_options CfgUndefined)))
    as (_ & _ & H).
  exact (proj1 (proj2 (H "/proj/a.js" ltac:(discriminate)))).
Defined.

(** ** Cache hits *)

(** A load that succeeded is answered from the two maps ever after. *)
Lemma load_hit w1 w2 D h s0 s1 a :
  process_cwd w2 = process_cwd w1 →
  ConfigLoader.loadConfigArrayForDirectory w1 D s0 = (Ok a, s1) →
  ∃ location,
    ConfigLoader.configFilePaths (run h s1).2
      !! absoluteDirPath w2 (ConfigLoader.options (run h s1).2) D = Some location ∧
    ConfigLoader.configArrays (run h s1).2 !! loc_configFilePath location = Some a.
Proof.
  intros Hcwd Hload.
  pose proof (load_ok_nonempty _ _ _ _ _ Hload) as HD.
  rewrite (load_unfold _ _ _ HD) in Hload.
  destruct (ConfigLoader.locateConfigFileToUse w1 _ s0) as [[loc|e] s0'] eqn:Hl;
    [|done].
  destruct (locate_ok_inv _ _ _ _ _ Hl) as (Hloc & _ & Hopt & _ & _).
  destruct (build_ok_inv _ _ _ _ _ _ Hload) as (Ha & Hpaths & Hopt' & _).
  destruct (run_keeps h s1) as (Hkp & Hka).
  exists loc. unfold absoluteDirPath in *. rewrite run_options, Hcwd, Hopt', Hopt.
  rewrite <- Hpaths in Hloc. split; [by apply Hkp | by apply Hka].
Qed.

(** X2.  After [loadConfigArrayForFile(f1)] has returned an array, and after
    any further calls, [loadConfigArrayForFile(f2)] for a file of the same
    directory returns that array and leaves the process and the instance as
    they were, and [getCachedConfigArrayForFile(f2)] returns the array too. *)
Theorem X2_files_of_one_directory w1 w2 f1 f2 h s0 s1 a :
  process_cwd w2 = process_cwd w1 →
  f2 ≠ "" →
  path.dirname f2 = path.dirname f1 →
  ConfigLoader.loadConfigArrayForFile w1 f1 s0 = (Ok a, s1) →
  ConfigLoader.loadConfigArrayForFile w2 f2 (run h s1) = (Ok a, run h s1) ∧
  ConfigLoader.getCachedConfigArrayForFile w2 (run h s1).2 f2 = Ok (Some a).
Proof.
  intros Hcwd Hf2 Hdir Hload.
  assert (f1 ≠ "") as Hf1 by (intros ->; done).
  rewrite (load_file_unfold _ _ _ Hf1) in Hload.
  destruct (load_hit _ _ _ h _ _ _ Hcwd Hload) as (loc & Hloc & Ha).
  pose proof (dirname_nonempty f1) as Hd.
  rewrite (load_file_unfold _ _ _ Hf2), Hdir. split.
  - rewrite (load_unfold _ _ _ Hd), (locate_cached _ _ _ _ Hloc).
    by rewrite (build_cached _ _ _ _ _ Ha).
  - unfold ConfigLoader.getCachedConfigArrayForFile.
    rewrite (checkValidFilePath_ok _ Hf2), Hdir.
    by rewrite (getCached_unfold _ _ _ Hd), Hloc, Ha.
Qed.

(** X2 for [/proj/a.js] and [/proj/b.js], the config file being edited in
    between. *)
Lemma X2_files_of_one_directory_witness :
  let s0 := fresh_state (project_options CfgUndefined) in
  let s1 := (ConfigLoader.loadConfigArrayForFile (project_world "/") "/proj/a.js" s0).2 in
  ConfigLoader.loadConfigArrayForFile (project_world "/") "/proj/a.js" s0
  = (Ok project_array, s1) ∧
  ConfigLoader.loadConfigArrayForFile (edited_world "/") "/proj/b.js" s1
  = (Ok project_array, s1) ∧
  ConfigLoader.getCachedConfigArrayForFile (edited_world "/") s1.2 "/proj/b.js"
  = Ok (Some project_array).
Proof.
  cbv zeta.
  assert (ConfigLoader.loadConfigArrayForFile (project_world "/") "/proj/a.js"
            (fresh_state (project_options CfgUndefined))
          = (Ok project_array,
             (ConfigLoader.loadConfigArrayForFile (project_world "/") "/proj/a.js"
                (fresh_state (project_options CfgUndefined))).2))
    as Hload by (vm_compute; reflexivity).
  split; [exact Hload|].
  exact (X2_files_of_one_directory (project_world "/") (edited_world "/")
           "/proj/a.js" "/proj/b.js" [] _ _ project_array
           eq_refl ltac:(discriminate) eq_refl Hload).
Defined.

(** X3.  What [loadConfigArrayForDirectory(D)] returned is what the
    synchronous accessor returns for [D] from then on, whatever calls are
    made in between; and [findConfigFileForDirectory(D)] then answers from
    the cache, without a search, with the path the array is cached under. *)
Theorem X3_load_then_get_cached w1 w2 D h s0 s1 a :
  process_cwd w2 = process_cwd w1 →
  ConfigLoader.loadConfigArrayForDirectory w1 D s0 = (Ok a, s1) →
  ConfigLoader.getCachedConfigArrayForDirectory w2 (run h s1).2 D = Ok (Some a) ∧
  ∃ configFilePath,
    ConfigLoader.findConfigFileForDirectory w2 D (run h s1)
    = (Ok configFilePath, run h s1) ∧
    ConfigLoader.configArrays (run h s1).2 !! configFilePath = Some a.
Proof.
  intros Hcwd Hload.
  pose proof (load_ok_nonempty _ _ _ _ _ Hload) as HD.
  destruct (load_hit _ _ _ h _ _ _ Hcwd Hload) as (loc & Hloc & Ha). split.
  - by rewrite (getCached_unfold _ _ _ HD), Hloc, Ha.
  - exists (loc_configFilePath loc).
    by rewrite (find_unfold _ _ _ HD), (locate_cached _ _ _ _ Hloc).
Qed.

(** X3 on the project, with a load for another directory in between. *)
Lemma X3_load_then_get_cached_witness :
  let w := project_world "/" in
  let s0 := fresh_state (project_options CfgUndefined) in
  let s1 := (ConfigLoader.loadConfigArrayForDirectory w "/proj" s0).2 in
  let h := [(w, LoadConfigArrayForDirectory "/proj/sub")] in
  ConfigLoader.loadConfigArrayForDirectory w "/proj" s0 = (Ok project_array, s1) ∧
  ConfigLoader.getCachedConfigArrayForDirectory w (run h s1).2 "/proj"
  = Ok (Some project_array).
Proof.
  cbv zeta.
  assert (ConfigLoader.loadConfigArrayForDirectory (project_world "/") "/proj"
            (fresh_state (project_options CfgUndefined))
          = (Ok project_array,
             (ConfigLoader.loadConfigArrayForDirectory (project_world "/") "/proj"
                (fresh_state (project_options CfgUndefined))).2))
    as Hload by (vm_compute; reflexivity).
  split; [exact Hload|].
  exact (proj1 (X3_load_then_get_cached (project_world "/") (project_world "/")
                  "/proj" [(project_world "/", LoadConfigArrayForDirectory "/proj/sub")]
                  _ _ project_array eq_refl Hload)).
Defined.

(** X4.  [findConfigFileForDirectory] never builds and never touches a
    module: it leaves [#configArrays] alone, and all it does to the process
    is one [findUp] search, made only when no override path is set, the
    config file is not disabled and the directory is not cached yet.  With
    an override path it returns the resolved path without looking at the
    file system at all. *)
Theorem X4_find_only_searches w D s :
  let r := ConfigLoader.findConfigFileForDirectory w D s in
  ConfigLoader.configArrays r.2.2 = ConfigLoader.configArrays s.2 ∧
  ConfigLoader.options r.2.2 = ConfigLoader.options s.2 ∧
  (r.2.1 = s.1 ∨
   opt_configFilePath (ConfigLoader.options s.2) = CfgUndefined ∧
   ConfigLoader.configFilePaths s.2
     !! absoluteDirPath w (ConfigLoader.options s.2) D = None ∧
   r.2.1 = add_event (EvFindUp (absoluteDirPath w (ConfigLoader.options s.2) D)) s.1).
Proof.
  cbv zeta. destruct (decide (D = "")) as [->|HD].
  { rewrite find_empty. auto. }
  rewrite (find_unfold _ _ _ HD).
  set (k := absoluteDirPath w (ConfigLoader.options s.2) D).
  destruct (ConfigLoader.configFilePaths s.2 !! k) as [cached|] eqn:Hk.
  - rewrite (locate_cached _ _ _ _ Hk). auto.
  - rewrite (locate_miss _ _ _ Hk). unfold searched.
    destruct (fresh_location w _ k) as [loc|e];
      destruct (opt_configFilePath (ConfigLoader.options s.2)); cbn;
      first [by auto | by (split; [|split; [|right]])].
Qed.

(** X5.  Over any sequence of calls the options of an instance stay the
    same, and an entry of [#configFilePaths] or of [#configArrays] is never
    replaced or removed. *)
Theorem X5_entries_persist h s :
  ConfigLoader.options (run h s).2 = ConfigLoader.options s.2 ∧
  (∀ k location,
     ConfigLoader.configFilePaths s.2 !! k = Some location →
     ConfigLoader.configFilePaths (run h s).2 !! k = Some location) ∧
  (∀ k configs,
     ConfigLoader.configArrays s.2 !! k = Some configs →
     ConfigLoader.configArrays (run h s).2 !! k = Some configs).
Proof.
  split; [apply run_options|]. apply run_keeps.
Qed.

(** X5 on the project: the array built for [/proj] survives a later call in
    a world where the config file was edited. *)
Lemma X5_entries_persist_witness :
  let s := (ConfigLoader.loadConfigArrayForDirectory (project_world "/") "/proj"
              (fresh_state (project_options CfgUndefined))).2 in
  let h := [(edited_world "/", LoadConfigArrayForDirectory "/proj/sub")] in
  ConfigLoader.configArrays s.2 !! Some "/proj/eslint.config.js" = Some project_array ∧
  ConfigLoader.configArrays (run h s).2 !! Some "/proj/eslint.config.js"
  = Some project_array.
Proof.
  cbv zeta.
  assert (ConfigLoader.configArrays
            (ConfigLoader.loadConfigArrayForDirectory (project_world "/") "/proj"
               (fresh_state (project_options CfgUndefined))).2.2
            !! Some "/proj/eslint.config.js" = Some project_array)
    as Hk by (vm_compute; reflexivity).
  split; [exact Hk|].
  exact (proj2 (proj2 (X5_entries_persist
                         [(edited_world "/", LoadConfigArrayForDirectory "/proj/sub")]
                         _)) _ _ Hk).
Defined.

(** ** The module loader *)

Lemma import_default_cached w filePath mtime g outcome :
  import_cache g !! (filePath, mtime) = Some outcome →
  import_default w filePath mtime g
  = (outcome, add_event (EvImport filePath mtime) g).
Proof.
  intros H. unfold import_default. unfold_m. unfold add_event at 1. cbn.
  by rewrite H.
Qed.

(** Whatever an import gives, value or error, is what the import cache
    holds for the URL afterwards. *)
Lemma import_default_remembers w filePath mtime g :
  import_cache (import_default w filePath mtime g).2 !! (filePath, mtime)
  = Some (import_default w filePath mtime g).1.
Proof.
  unfold import_default. unfold_m. unfold add_event.
  destruct g as [mt rc ic n tr]. cbn.
  destruct (ic !! (filePath, mtime)) as [cached|] eqn:Hc; [done|].
  destruct (is_commonjs w filePath); cbn.
  - destruct (rc !! filePath); [|destruct (evaluate w filePath)]; cbn;
      apply lookup_insert_eq.
  - apply lookup_insert_eq.
Qed.

(** An URL not imported before and a file not in [require.cache]: the file
    is executed, as an ES module or through [require]. *)
Lemma import_default_fresh w filePath mtime g :
  import_cache g !! (filePath, mtime) = None →
  (is_commonjs w filePath = true → require_cache g !! filePath = None) →
  (import_default w filePath mtime g).1 = evaluate w filePath ∧
  evaluations (import_default w filePath mtime g).2 = S (evaluations g) ∧
  importedConfigFileModificationTime (import_default w filePath mtime g).2
  = importedConfigFileModificationTime g ∧
  next_id (import_default w filePath mtime g).2 = next_id g.
Proof.
  intros Hurl Hreq. unfold import_default. unfold_m. unfold add_event.
  destruct g as [mt rc ic n tr]. unfold evaluations. cbn in *. rewrite Hurl.
  destruct (is_commonjs w filePath); cbn.
  - rewrite Hreq by done. by destruct (evaluate w filePath) as [v|e].
  - by destruct (evaluate w filePath) as [v|e].
Qed.

Lemma loadConfigFile_unfold w filePath g :
  loadConfigFile w filePath g =
  match stat_mtime w filePath with
  | Throw e => (Throw e, add_event (EvStat filePath) g)
  | Ok mtime =>
      let g1 := add_event (EvStat filePath) g in
      let g2 :=
        if decide (importedConfigFileModificationTime g !! filePath = Some mtime)
        then g1 else without_required filePath g1 in
      match import_default w filePath mtime g2 with
      | (Ok config, g3) => (Ok config, with_mtime filePath mtime g3)
      | (Throw e, g3) => (Throw e, g3)
      end
  end.
Proof.
  unfold loadConfigFile, fs_stat. unfold bind at 1. unfold bind at 1.
  unfold emit at 1, modify at 1, lift_result at 1.
  destruct (stat_mtime w filePath) as [mtime|e]; [|done].
  unfold bind at 1, gets at 1. cbn [add_event importedConfigFileModificationTime].
  unfold bind at 1. cbv zeta.
  destruct (decide (importedConfigFileModificationTime g !! filePath = Some mtime))
    as [Hseen|Hseen].
  - unfold ret at 1. unfold bind at 1.
    destruct (import_default w filePath mtime _) as [[config|e'] g3]; [|done].
    reflexivity.
  - unfold delete_require_cache at 1, modify at 1. unfold bind at 1.
    fold (without_required filePath (add_event (EvStat filePath) g)).
    destruct (import_default w filePath mtime _) as [[config|e'] g3]; [|done].
    reflexivity.
Qed.

(** X6.  When the modification time of the file is not the one recorded for
    it, and the file was never imported at that time, [loadConfigFile]
    executes the file and returns what the execution gives, value or error,
    for an ES module and for a CommonJS one alike and whatever
    [require.cache] held for the path; on success the time is recorded.
    An import that failed counts as an import here: the import cache
    remembers it too. *)
Theorem X6_changed_file_is_executed w filePath mtime g :
  stat_mtime w filePath = Ok mtime →
  importedConfigFileModificationTime g !! filePath ≠ Some mtime →
  import_cache g !! (filePath, mtime) = None →
  (loadConfigFile w filePath g).1 = evaluate w filePath ∧
  evaluations (loadConfigFile w filePath g).2 = S (evaluations g) ∧
  (is_ok (evaluate w filePath) = true →
   importedConfigFileModificationTime (loadConfigFile w filePath g).2 !! filePath
   = Some mtime) ∧
  (is_ok (evaluate w filePath) = false →
   importedConfigFileModificationTime (loadConfigFile w filePath g).2
   = importedConfigFileModificationTime g).
Proof.
  intros Hstat Hseen Hurl. rewrite loadConfigFile_unfold, Hstat. cbv zeta.
  destruct (decide (_ = Some mtime)) as [|_]; [done|].
  destruct (import_default_fresh w filePath mtime
              (without_required filePath (add_event (EvStat filePath) g)))
    as (Hres & Hev & Hmt & _).
  { done. }
  { intros _. cbn. apply lookup_delete_eq. }
  destruct (import_default w filePath mtime _) as [[config|e] g3];
    cbn [fst snd] in *; rewrite <- Hres.
  - repeat split; [done| |done]. intros _. cbn. apply lookup_insert_eq.
  - repeat split; [done|done|]. intros _. by rewrite Hmt.
Qed.

(** X6 for a CommonJS config file that was loaded at time 100, is still in
    [require.cache], and is now met at time 200 with another export. *)
Lemma X6_changed_file_is_executed_witness :
  let p := "/proj/eslint.config.js" in
  let g := (loadConfigFile (commonjs_world 100 (VObject "old")) p initial_process).2 in
  stat_mtime (commonjs_world 200 (VObject "new")) p = Ok 200%Z ∧
  require_cache g !! p = Some (VObject "old") ∧
  importedConfigFileModificationTime g !! p ≠ Some 200%Z ∧
  import_cache g !! (p, 200%Z) = None ∧
  (loadConfigFile (commonjs_world 200 (VObject "new")) p g).1 = Ok (VObject "new").
Proof.
  cbv zeta.
  assert (importedConfigFileModificationTime
            (loadConfigFile (commonjs_world 100 (VObject "old"))
               "/proj/eslint.config.js" initial_process).2
            !! "/proj/eslint.config.js" ≠ Some 200%Z)
    as Hseen by (vm_compute; discriminate).
  assert (import_cache
            (loadConfigFile (commonjs_world 100 (VObject "old"))
               "/proj/eslint.config.js" initial_process).2
            !! ("/proj/eslint.config.js", 200%Z) = None)
    as Hurl by (vm_compute; reflexivity).
  split; [reflexivity|]. split; [vm_compute; reflexivity|].
  split; [exact Hseen|]. split; [exact Hurl|].
  exact (proj1 (X6_changed_file_is_executed (commonjs_world 200 (VObject "new"))
                  "/proj/eslint.config.js" 200%Z _ eq_refl Hseen Hurl)).
Defined.

Lemma loadConfigFile_ok_inv w filePath g config g' :
  loadConfigFile w filePath g = (Ok config, g') →
  ∃ mtime,
    stat_mtime w filePath = Ok mtime ∧
    importedConfigFileModificationTime g' !! filePath = Some mtime ∧
    import_cache g' !! (filePath, mtime) = Some (Ok config).
Proof.
  rewrite loadConfigFile_unfold.
  destruct (stat_mtime w filePath) as [mtime|e]; [|done]. cbv zeta.
  set (g2 := if decide _ then _ else _).
  pose proof (import_default_remembers w filePath mtime g2) as Hrem.
  destruct (import_default w filePath mtime g2) as [[v|e] g3] eqn:Himp; [|done].
  intros [= <- <-]. exists mtime. split; [done|]. split.
  - cbn. apply lookup_insert_eq.
  - exact Hrem.
Qed.

(** A load that throws after a successful [fs.stat] throws what the import
    threw, and the import cache holds that error for the URL. *)
Lemma loadConfigFile_throw_inv w filePath mtime g e g' :
  stat_mtime w filePath = Ok mtime →
  loadConfigFile w filePath g = (Throw e, g') →
  import_cache g' !! (filePath, mtime) = Some (Throw e).
Proof.
  intros Hstat. rewrite loadConfigFile_unfold, Hstat. cbv zeta.
  set (g2 := if decide _ then _ else _).
  pose proof (import_default_remembers w filePath mtime g2) as Hrem.
  destruct (import_default w filePath mtime g2) as [[v|e'] g3] eqn:Himp; [done|].
  by intros [= <- <-].
Qed.

Lemma loadConfigFile_unchanged w filePath mtime g v :
  stat_mtime w filePath = Ok mtime →
  importedConfigFileModificationTime g !! filePath = Some mtime →
  import_cache g !! (filePath, mtime) = Some (Ok v) →
  loadConfigFile w filePath g
  = (Ok v, add_event (EvImport filePath mtime) (add_event (EvStat filePath) g)).
Proof.
  intros Hstat Hseen Hurl. rewrite loadConfigFile_unfold, Hstat. cbv zeta.
  destruct (decide (_ = Some mtime)) as [_|]; [|done].
  rewrite (import_default_cached _ _ _ _ (Ok v)) by done.
  f_equal. unfold with_mtime, add_event. cbn. f_equal. by apply insert_id.
Qed.

(** X7.  Once [loadConfigFile] has loaded a file, loading it again while its
    modification time is the same returns the same value without executing
    the file and without touching [require.cache]: the process only sees one
    more [fs.stat] and one more [import()].  What the file would give if it
    were executed plays no part. *)
Theorem X7_unchanged_file_is_not_executed w1 w2 filePath g0 g1 config :
  loadConfigFile w1 filePath g0 = (Ok config, g1) →
  stat_mtime w2 filePath = stat_mtime w1 filePath →
  ∃ mtime,
    stat_mtime w1 filePath = Ok mtime ∧
    loadConfigFile w2 filePath g1
    = (Ok config,
       add_event (EvImport filePath mtime) (add_event (EvStat filePath) g1)).
Proof.
  intros Hload Hstat.
  destruct (loadConfigFile_ok_inv _ _ _ _ _ Hload) as (mtime & Hm & Hseen & Hurl).
  exists mtime. split; [done|].
  apply loadConfigFile_unchanged; [by rewrite Hstat|done..].
Qed.

(** X7 for a file whose content changed while its modification time did
    not. *)
Lemma X7_unchanged_file_is_not_executed_witness :
  let p := "/proj/eslint.config.js" in
  let w1 := commonjs_world 100 (VObject "old") in
  let w2 := commonjs_world 100 (VObject "new") in
  let g1 := (loadConfigFile w1 p initial_process).2 in
  loadConfigFile w1 p initial_process = (Ok (VObject "old"), g1) ∧
  stat_mtime w2 p = stat_mtime w1 p ∧
  (loadConfigFile w2 p g1).1 = Ok (VObject "old").
Proof.
  cbv zeta.
  assert (loadConfigFile (commonjs_world 100 (VObject "old"))
            "/proj/eslint.config.js" initial_process
          = (Ok (VObject "old"),
             (loadConfigFile (commonjs_world 100 (VObject "old"))
                "/proj/eslint.config.js" initial_process).2))
    as Hload by (vm_compute; reflexivity).
  split; [exact Hload|]. split; [reflexivity|].
  destruct (X7_unchanged_file_is_not_executed
              (commonjs_world 100 (VObject "old"))
              (commonjs_world 100 (VObject "new"))
              "/proj/eslint.config.js" _ _ _ Hload eq_refl)
    as (mtime & _ & Hagain).
  by rewrite Hagain.
Defined.

Lemma resolve_nonempty process_cwd args : path.resolve process_cwd args ≠ "".
Proof.
  unfold path.resolve.
  destruct (path.resolve_go _ _) as [resolvedPath [|]]; [done|].
  by destruct (String.eqb_spec (path.normalizeString resolvedPath (negb false)) "").
Qed.

Lemma nonempty_path_Some p : p ≠ "" → nonempty_path (Some p) = Some p.
Proof. intros H. cbn. by destruct (String.eqb_spec p ""). Qed.

(** X8.  With an override path whose file cannot be stat'ed, a first
    [loadConfigArrayForDirectory] on a new instance throws the error of
    [fs.stat] as it is, after having constructed an array and before any
    [import()] or [normalize()]; no array is cached.  The location is cached
    all the same: [findConfigFileForDirectory] keeps returning the resolved
    path, which was never checked for existence, and the synchronous
    accessor returns [undefined]. *)
Theorem X8_unreadable_override_file w options P g D e :
  opt_configFilePath options = CfgPath P →
  D ≠ "" →
  stat_mtime w (path.resolve (process_cwd w) [cwd options; P]) = Throw e →
  let p := path.resolve (process_cwd w) [cwd options; P] in
  let r := ConfigLoader.loadConfigArrayForDirectory w D (g, ConfigLoader.new options) in
  r.1 = Throw e ∧
  trace r.2.1 = EvStat p :: EvNew (next_id g) :: trace g ∧
  ConfigLoader.configArrays r.2.2 = ∅ ∧
  ConfigLoader.findConfigFileForDirectory w D r.2 = (Ok (Some p), r.2) ∧
  ConfigLoader.getCachedConfigArrayForDirectory w r.2.2 D = Ok None.
Proof.
  intros Hopt HD Hstat p r.
  set (location := mkLocation (Some p) (cwd options)).
  set (k := absoluteDirPath w options D).
  assert (r = (Throw e,
               (add_event (EvStat p) (after_new g),
                ConfigLoader.mk ∅ (<[k := location]> ∅) options))) as ->.
  { unfold r. rewrite (load_unfold _ _ _ HD). cbn [snd ConfigLoader.new ConfigLoader.options].
    rewrite locate_miss by apply lookup_empty.
    cbn [snd ConfigLoader.new ConfigLoader.options ConfigLoader.configFilePaths
         ConfigLoader.configArrays fst].
    rewrite (fresh_location_override _ _ _ _ Hopt). fold p location k.
    rewrite build_miss by apply lookup_empty.
    cbn [snd fst loc_configFilePath loc_basePath location ConfigLoader.options
         ConfigLoader.configArrays ConfigLoader.configFilePaths].
    rewrite calculateConfigArray_unfold.
    rewrite (nonempty_path_Some p) by apply resolve_nonempty.
    rewrite loadConfigFile_unfold. fold p in Hstat. rewrite Hstat.
    unfold searched. by rewrite Hopt. }
  cbn [fst snd ConfigLoader.configArrays]. repeat split.
  - rewrite (find_unfold _ _ _ HD). cbn [snd ConfigLoader.options]. fold k.
    by rewrite (locate_cached _ _ _ location) by apply lookup_insert_eq.
  - rewrite (getCached_unfold _ _ _ HD). cbn [ConfigLoader.options]. fold k.
    cbn [ConfigLoader.configFilePaths]. by rewrite lookup_insert_eq.
Qed.

(** X8 with the override path [missing.config.js] in the project. *)
Lemma X8_unreadable_override_file_witness :
  let w := project_world "/" in
  let options := project_options (CfgPath "missing.config.js") in
  let r := ConfigLoader.loadConfigArrayForDirectory w "/proj"
             (initial_process, ConfigLoader.new options) in
  stat_mtime w (path.resolve (process_cwd w) [cwd options; "missing.config.js"])
  = Throw (Error "ENOENT: no such file or directory") ∧
  r.1 = Throw (Error "ENOENT: no such file or directory") ∧
  ConfigLoader.findConfigFileForDirectory w "/proj" r.2
  = (Ok (Some "/proj/sub/missing.config.js"), r.2).
Proof.
  cbv zeta.
  destruct (X8_unreadable_override_file (project_world "/")
              (project_options (CfgPath "missing.config.js")) "missing.config.js"
              initial_process "/proj" (Error "ENOENT: no such file or directory")
              eq_refl ltac:(discriminate) eq_refl)
    as (Hthrow & _ & _ & Hfind & _).
  split; [reflexivity|]. split; [exact Hthrow | exact Hfind].
Defined.

(** ** [LegacyConfigLoader]: one location and one array for the instance *)

Lemma legacy_locate_pinned w d s pinned :
  LegacyConfigLoader.configFilePath s.2 = Some pinned →
  LegacyConfigLoader.locateConfigFileToUse w d s = (Ok pinned, s).
Proof.
  intros H. unfold LegacyConfigLoader.locateConfigFileToUse.
  unfold bind at 1, gets at 1. by rewrite H.
Qed.

Lemma legacy_locate_unpinned w d s :
  LegacyConfigLoader.configFilePath s.2 = None →
  LegacyConfigLoader.locateConfigFileToUse w d s =
  match fresh_location w (LegacyConfigLoader.options s.2) d with
  | Ok location =>
      (Ok location,
       (searched (LegacyConfigLoader.options s.2) d s.1,
        LegacyConfigLoader.mk (Some location) (LegacyConfigLoader.configArray s.2)
          (LegacyConfigLoader.options s.2)))
  | Throw e => (Throw e, (searched (LegacyConfigLoader.options s.2) d s.1, s.2))
  end.
Proof.
  intros H. destruct s as [g this].
  unfold LegacyConfigLoader.locateConfigFileToUse, fresh_location, searched.
  unfold bind at 1, gets at 1. cbn [fst snd] in *. rewrite H.
  destruct (opt_configFilePath (LegacyConfigLoader.options this)); try reflexivity.
  unfold findUp. unfold_m. cbn [fst snd].
  destruct (nonempty_path _); reflexivity.
Qed.

Lemma legacy_locate_ok_inv w d s location s' :
  LegacyConfigLoader.locateConfigFileToUse w d s = (Ok location, s') →
  LegacyConfigLoader.configFilePath s'.2 = Some location ∧
  LegacyConfigLoader.configArray s'.2 = LegacyConfigLoader.configArray s.2.
Proof.
  destruct (LegacyConfigLoader.configFilePath s.2) as [pinned|] eqn:Hp.
  - rewrite (legacy_locate_pinned _ _ _ _ Hp). by intros [= <- <-].
  - rewrite (legacy_locate_unpinned _ _ _ Hp).
    destruct (fresh_location w _ d); by intros [= <- <-].
Qed.

Lemma legacy_locate_throw_inv w d s e s' :
  LegacyConfigLoader.locateConfigFileToUse w d s = (Throw e, s') →
  s'.2 = s.2 ∧ LegacyConfigLoader.configFilePath s.2 = None ∧
  e = config_file_missing.
Proof.
  destruct (LegacyConfigLoader.configFilePath s.2) as [pinned|] eqn:Hp.
  - by rewrite (legacy_locate_pinned _ _ _ _ Hp).
  - rewrite (legacy_locate_unpinned _ _ _ Hp). unfold fresh_location.
    destruct (opt_configFilePath _); try done.
    destruct (nonempty_path _); [done|]. by intros [= <- <-].
Qed.

Lemma legacy_build_cached w configFilePath basePath s cached :
  LegacyConfigLoader.configArray s.2 = Some cached →
  LegacyConfigLoader.calculateConfigArray w configFilePath basePath s = (Ok cached, s).
Proof.
  intros H. unfold LegacyConfigLoader.calculateConfigArray.
  unfold bind at 1, gets at 1. by rewrite H.
Qed.

Lemma legacy_build_inv w configFilePath basePath s r s' :
  LegacyConfigLoader.calculateConfigArray w configFilePath basePath s = (r, s') →
  LegacyConfigLoader.configFilePath s'.2 = LegacyConfigLoader.configFilePath s.2 ∧
  match r with
  | Ok configs => LegacyConfigLoader.configArray s'.2 = Some configs
  | Throw _ => s'.2 = s.2 ∧ LegacyConfigLoader.configArray s.2 = None
  end.
Proof.
  destruct (LegacyConfigLoader.configArray s.2) as [cached|] eqn:Hc.
  - rewrite (legacy_build_cached _ _ _ _ _ Hc). by intros [= <- <-].
  - destruct s as [g this]. unfold LegacyConfigLoader.calculateConfigArray.
    unfold bind at 1, gets at 1. cbn [fst snd] in *. rewrite Hc. unfold_m.
    cbn [fst snd].
    destruct (calculateConfigArray w _ _ _ g) as [[configs|e] g'];
      by intros [= <- <-].
Qed.

Lemma legacy_find_unfold w dirPath s :
  dirPath ≠ "" →
  LegacyConfigLoader.findConfigFileForDirectory w dirPath s =
  match LegacyConfigLoader.locateConfigFileToUse w
          (absoluteDirPath w (LegacyConfigLoader.options s.2) dirPath) s with
  | (Ok location, s') => (Ok (loc_configFilePath location), s')
  | (Throw e, s') => (Throw e, s')
  end.
Proof.
  intros H. unfold LegacyConfigLoader.findConfigFileForDirectory, assertValidFilePath.
  rewrite (checkValidFilePath_ok _ H). unfold_m. reflexivity.
Qed.

Lemma legacy_load_unfold w dirPath s :
  dirPath ≠ "" →
  LegacyConfigLoader.loadConfigArrayForDirectory w dirPath s =
  match LegacyConfigLoader.locateConfigFileToUse w
          (absoluteDirPath w (LegacyConfigLoader.options s.2) dirPath) s with
  | (Ok location, s') =>
      LegacyConfigLoader.calculateConfigArray w (loc_configFilePath location)
        (loc_basePath location) s'
  | (Throw e, s') => (Throw e, s')
  end.
Proof.
  intros H. unfold LegacyConfigLoader.loadConfigArrayForDirectory, assertValidFilePath.
  rewrite (checkValidFilePath_ok _ H). unfold_m. reflexivity.
Qed.

(** X9.  On a [LegacyConfigLoader], once [findConfigFileForDirectory] or
    [findConfigFileForFile] has returned, every later find, for any
    non-empty directory or file and in any state of the file system, returns
    the same config file path and leaves the process and the instance as
    they were: the first location is the location of the instance. *)
Theorem X9_legacy_location_is_pinned w1 w2 D1 s0 s1 configFilePath :
  LegacyConfigLoader.findConfigFileForDirectory w1 D1 s0 = (Ok configFilePath, s1) →
  ∀ p, p ≠ "" →
    LegacyConfigLoader.findConfigFileForDirectory w2 p s1 = (Ok configFilePath, s1) ∧
    LegacyConfigLoader.findConfigFileForFile w2 p s1 = (Ok configFilePath, s1).
Proof.
  intros Hfind p Hp.
  assert (D1 ≠ "") as HD1 by (intros ->; done).
  rewrite (legacy_find_unfold _ _ _ HD1) in Hfind.
  destruct (LegacyConfigLoader.locateConfigFileToUse w1 _ s0)
    as [[loc|e] s0'] eqn:Hl; [|done].
  injection Hfind as <- <-.
  destruct (legacy_locate_ok_inv _ _ _ _ _ Hl) as (Hpin & _).
  assert (∀ d, d ≠ "" →
            LegacyConfigLoader.findConfigFileForDirectory w2 d s0'
            = (Ok (loc_configFilePath loc), s0')) as Hany.
  { intros d Hd. rewrite (legacy_find_unfold _ _ _ Hd).
    by rewrite (legacy_locate_pinned _ _ _ _ Hpin). }
  split; [by apply Hany|].
  unfold LegacyConfigLoader.findConfigFileForFile, assertValidFilePath.
  rewrite (checkValidFilePath_ok _ Hp). unfold bind at 1, lift_result at 1.
  apply Hany, dirname_nonempty.
Qed.

(** X9 on the nested project: the location found from [/proj/sub] answers
    for [/proj], whose own search would find another file. *)
Lemma X9_legacy_location_is_pinned_witness :
  let s0 := (initial_process, LegacyConfigLoader.new (project_options CfgUndefined)) in
  let s1 := (LegacyConfigLoader.findConfigFileForDirectory nested_world "/proj/sub" s0).2 in
  LegacyConfigLoader.findConfigFileForDirectory nested_world "/proj/sub" s0
  = (Ok (Some "/proj/sub/eslint.config.mjs"), s1) ∧
  (LegacyConfigLoader.findConfigFileForDirectory nested_world "/proj" s0).1
  = Ok (Some "/proj/eslint.config.js") ∧
  "/proj" ≠ "" ∧
  LegacyConfigLoader.findConfigFileForDirectory nested_world "/proj" s1
  = (Ok (Some "/proj/sub/eslint.config.mjs"), s1).
Proof.
  cbv zeta.
  assert (LegacyConfigLoader.findConfigFileForDirectory nested_world "/proj/sub"
            (initial_process, LegacyConfigLoader.new (project_options CfgUndefined))
          = (Ok (Some "/proj/sub/eslint.config.mjs"),
             (LegacyConfigLoader.findConfigFileForDirectory nested_world "/proj/sub"
                (initial_process,
                 LegacyConfigLoader.new (project_options CfgUndefined))).2))
    as Hfind by (vm_compute; reflexivity).
  split; [exact Hfind|]. split; [vm_compute; reflexivity|].
  split; [discriminate|].
  exact (proj1 (X9_legacy_location_is_pinned nested_world nested_world "/proj/sub"
                  _ _ _ Hfind "/proj" ltac:(discriminate))).
Defined.

(** X10.  On a [LegacyConfigLoader], once [loadConfigArrayForDirectory] has
    returned an array, every later load, for any non-empty directory or
    file, returns that array and leaves the process and the instance as they
    were, and the synchronous accessors return it for any non-empty path. *)
Theorem X10_legacy_array_is_pinned w1 w2 D1 s0 s1 configs :
  LegacyConfigLoader.loadConfigArrayForDirectory w1 D1 s0 = (Ok configs, s1) →
  ∀ p, p ≠ "" →
    LegacyConfigLoader.loadConfigArrayForDirectory w2 p s1 = (Ok configs, s1) ∧
    LegacyConfigLoader.loadConfigArrayForFile w2 p s1 = (Ok configs, s1) ∧
    LegacyConfigLoader.getCachedConfigArrayForDirectory s1.2 p = Ok configs ∧
    LegacyConfigLoader.getCachedConfigArrayForFile s1.2 p = Ok configs.
Proof.
  intros Hload p Hp.
  assert (D1 ≠ "") as HD1 by (intros ->; done).
  rewrite (legacy_load_unfold _ _ _ HD1) in Hload.
  destruct (LegacyConfigLoader.locateConfigFileToUse w1 _ s0)
    as [[loc|e] s0'] eqn:Hl; [|done].
  destruct (legacy_locate_ok_inv _ _ _ _ _ Hl) as (Hpin & _).
  destruct (legacy_build_inv _ _ _ _ _ _ Hload) as (Hpin' & Harr).
  rewrite Hpin in Hpin'.
  assert (∀ d, d ≠ "" →
            LegacyConfigLoader.loadConfigArrayForDirectory w2 d s1 = (Ok configs, s1))
    as Hany.
  { intros d Hd. rewrite (legacy_load_unfold _ _ _ Hd).
    rewrite (legacy_locate_pinned _ _ _ _ Hpin').
    by apply legacy_build_cached. }
  assert (∀ d, d ≠ "" →
            LegacyConfigLoader.getCachedConfigArrayForDirectory s1.2 d = Ok configs)
    as Hget.
  { intros d Hd. unfold LegacyConfigLoader.getCachedConfigArrayForDirectory.
    by rewrite (checkValidFilePath_ok _ Hd), Harr. }
  split; [by apply Hany|]. split; [|split; [by apply Hget|]].
  - unfold LegacyConfigLoader.loadConfigArrayForFile, assertValidFilePath.
    rewrite (checkValidFilePath_ok _ Hp). unfold bind at 1, lift_result at 1.
    apply Hany, dirname_nonempty.
  - unfold LegacyConfigLoader.getCachedConfigArrayForFile.
    rewrite (checkValidFilePath_ok _ Hp). apply Hget, dirname_nonempty.
Qed.

(** X10 on the nested project: the array built for [/proj/sub] is returned
    for [/proj]. *)
Lemma X10_legacy_array_is_pinned_witness :
  let s0 := (initial_process, LegacyConfigLoader.new (project_options CfgUndefined)) in
  let r := LegacyConfigLoader.loadConfigArrayForDirectory nested_world "/proj/sub" s0 in
  is_ok r.1 = true ∧
  "/proj" ≠ "" ∧
  (LegacyConfigLoader.loadConfigArrayForDirectory nested_world "/proj" r.2).1 = r.1.
Proof.
  cbv zeta.
  destruct (LegacyConfigLoader.loadConfigArrayForDirectory nested_world "/proj/sub"
              (initial_process, LegacyConfigLoader.new (project_options CfgUndefined)))
    as [[configs|e] s1] eqn:Hload; [|by vm_compute in Hload].
  split; [reflexivity|]. split; [discriminate|].
  destruct (X10_legacy_array_is_pinned nested_world nested_world "/proj/sub"
              _ _ _ Hload "/proj" ltac:(discriminate)) as (Hagain & _).
  cbn [fst snd]. by rewrite Hagain.
Defined.

(** X11.  On a [LegacyConfigLoader] a find that throws pins nothing: the
    instance is as it was, with no location, and the error is the
    non-empty-string error or the missing-config-file error.  A load that
    throws leaves the array field as it was. *)
Theorem X11_legacy_failure_pins_nothing w D s e s' :
  (LegacyConfigLoader.findConfigFileForDirectory w D s = (Throw e, s') →
   s'.2 = s.2 ∧
   (e = invalid_argument ∨
    e = config_file_missing ∧ LegacyConfigLoader.configFilePath s'.2 = None)) ∧
  (LegacyConfigLoader.loadConfigArrayForDirectory w D s = (Throw e, s') →
   LegacyConfigLoader.configArray s'.2 = LegacyConfigLoader.configArray s.2).
Proof.
  split.
  - destruct (decide (D = "")) as [->|HD].
    { intros [= <- <-]. auto. }
    rewrite (legacy_find_unfold _ _ _ HD).
    destruct (LegacyConfigLoader.locateConfigFileToUse w _ s)
      as [[loc|e'] s1] eqn:Hl; [done|].
    intros [= <- <-].
    destruct (legacy_locate_throw_inv _ _ _ _ _ Hl) as (Hs & Hnone & ->).
    split; [done|]. right. by rewrite Hs.
  - destruct (decide (D = "")) as [->|HD].
    { by intros [= <- <-]. }
    rewrite (legacy_load_unfold _ _ _ HD).
    destruct (LegacyConfigLoader.locateConfigFileToUse w _ s)
      as [[loc|e'] s1] eqn:Hl.
    + intros Hc. destruct (legacy_locate_ok_inv _ _ _ _ _ Hl) as (_ & Harr).
      destruct (legacy_build_inv _ _ _ _ _ _ Hc) as (_ & Hs & Hnone).
      by rewrite Hs, Harr.
    + intros [= <- <-].
      destruct (legacy_locate_throw_inv _ _ _ _ _ Hl) as (Hs & _).
      by rewrite Hs.
Qed.

(** X11 on an empty file system, and the search made again once the project
    is there. *)
Lemma X11_legacy_failure_pins_nothing_witness :
  let s := (initial_process, LegacyConfigLoader.new (project_options CfgUndefined)) in
  let r := LegacyConfigLoader.findConfigFileForDirectory (empty_world "/") "/proj" s in
  r = (Throw config_file_missing, r.2) ∧
  r.2.2 = s.2 ∧
  (LegacyConfigLoader.findConfigFileForDirectory (project_world "/") "/proj" r.2).1
  = Ok (Some "/proj/eslint.config.js").
Proof.
  cbv zeta.
  assert (LegacyConfigLoader.findConfigFileForDirectory (empty_world "/") "/proj"
            (initial_process, LegacyConfigLoader.new (project_options CfgUndefined))
          = (Throw config_file_missing,
             (LegacyConfigLoader.findConfigFileForDirectory (empty_world "/") "/proj"
                (initial_process,
                 LegacyConfigLoader.new (project_options CfgUndefined))).2))
    as Hfind by (vm_compute; reflexivity).
  split; [exact Hfind|].
  split; [|vm_compute; reflexivity].
  exact (proj1 (proj1 (X11_legacy_failure_pins_nothing (empty_world "/") "/proj"
                         _ _ _) Hfind)).
Defined.

(** ** Names, absolute paths and the path functions *)

Lemma is_name_ordinary x : is_name x = true → ordinary_segment x = true.
Proof. unfold is_name. by intros [? ?]%andb_true_iff. Qed.

Lemma is_name_chars x :
  is_name x = true →
  forallb (λ c, negb (path.isPathSeparator c)) (list_ascii_of_string x) = true.
Proof. unfold is_name. by intros [? ?]%andb_true_iff. Qed.

Lemma is_name_nonempty x : is_name x = true → x ≠ "".
Proof. intros H ->. done. Qed.

Lemma split_slash_free x :
  forallb (λ c, negb (path.isPathSeparator c)) (list_ascii_of_string x) = true →
  path.split x = [x].
Proof.
  induction x as [|c x IH]; [done|]. cbn [list_ascii_of_string forallb path.split].
  intros [Hc Hx]%andb_true_iff. apply negb_true_iff in Hc. rewrite Hc.
  by rewrite (IH Hx).
Qed.

Lemma split_parts_slash_free s :
  Forall (λ x, forallb (λ c, negb (path.isPathSeparator c))
                 (list_ascii_of_string x) = true) (path.split s).
Proof.
  induction s as [|c s IH]; [by repeat constructor|]. cbn [path.split].
  destruct (path.isPathSeparator c) eqn:Hc; [by constructor|].
  destruct (path.split s) as [|x r].
  - constructor; [|done]. cbn. by rewrite Hc.
  - inversion IH; subst. constructor; [|done]. cbn. by rewrite Hc.
Qed.

Lemma normalize_step_names segs acc :
  Forall (λ x, forallb (λ c, negb (path.isPathSeparator c))
                 (list_ascii_of_string x) = true) segs →
  Forall (λ x, is_name x = true) acc →
  Forall (λ x, is_name x = true) (fold_left (path.normalize_step false) segs acc).
Proof.
  revert acc. induction segs as [|seg segs IH]; intros acc Hsegs Hacc; [done|].
  inversion Hsegs as [|? ? Hseg Hrest]; subst. cbn [fold_left]. apply IH; [done|].
  unfold path.normalize_step.
  destruct (String.eqb seg "") eqn:H1; [done|].
  destruct (String.eqb seg ".") eqn:H2; [done|]. cbn [orb].
  destruct (String.eqb seg "..") eqn:H3.
  - destruct acc as [|top rest]; [done|]. inversion Hacc; subst.
    by destruct (String.eqb top "..").
  - constructor; [|done]. unfold is_name, ordinary_segment.
    by rewrite H1, H2, H3, Hseg.
Qed.

Lemma normalize_segments_names p :
  Forall (λ x, is_name x = true) (path.normalize_segments false p).
Proof.
  unfold path.normalize_segments. apply Forall_forall. intros x Hx.
  apply list_elem_of_In, in_rev, list_elem_of_In in Hx. revert x Hx.
  apply Forall_forall, normalize_step_names; [apply split_parts_slash_free|done].
Qed.

Lemma fold_left_names allowAboveRoot segs acc :
  Forall (λ x, is_name x = true) segs →
  fold_left (path.normalize_step allowAboveRoot) segs acc = rev segs ++ acc.
Proof.
  intros H. apply fold_left_ordinary. apply forallb_forall. intros x Hx.
  apply is_name_ordinary. rewrite Forall_forall in H. by apply H, list_elem_of_In.
Qed.

Lemma split_concat_names segs :
  segs ≠ [] →
  Forall (λ x, is_name x = true) segs →
  path.split (String.concat "/" segs) = segs.
Proof.
  induction segs as [|x segs IH]; [done|]. intros _ H. inversion H; subst.
  destruct segs as [|y segs].
  - cbn. by apply split_slash_free, is_name_chars.
  - rewrite concat_cons_cons.
    change (x +:+ "/" +:+ String.concat "/" (y :: segs))
      with (x +:+ String "/" (String.concat "/" (y :: segs))).
    rewrite split_app_slash, IH by done.
    by rewrite split_slash_free by by apply is_name_chars.
Qed.

(** Normalizing the text of a list of names pushes the names. *)
Lemma fold_left_concat_names allowAboveRoot segs acc :
  Forall (λ x, is_name x = true) segs →
  fold_left (path.normalize_step allowAboveRoot)
    (path.split (String.concat "/" segs)) acc = rev segs ++ acc.
Proof.
  intros H. destruct segs as [|x segs]; [done|].
  rewrite split_concat_names by done. by apply fold_left_names.
Qed.

Lemma name_not_absolute x : is_name x = true → path.isAbsolute x = false.
Proof.
  intros H. pose proof (is_name_chars _ H) as Hc.
  destruct x as [|c x]; [done|]. cbn in Hc.
  apply andb_true_iff in Hc as [Hc _]. apply negb_true_iff in Hc.
  exact Hc.
Qed.

(** [path.resolve(d, name)] for an absolute [d] made of names. *)
Lemma resolve_from_root process_cwd segs name :
  Forall (λ x, is_name x = true) segs → is_name name = true →
  path.resolve process_cwd [from_root segs; name] = from_root (segs ++ [name]).
Proof.
  intros Hsegs Hname. unfold path.resolve. cbn [rev app path.resolve_go].
  destruct (String.eqb_spec name "") as [->|_]; [done|].
  rewrite (name_not_absolute _ Hname).
  change (String.eqb (from_root segs) "") with false.
  change (path.isAbsolute (from_root segs)) with true. cbv iota. cbn [negb].
  unfold from_root at 2. f_equal.
  unfold path.normalizeString, path.normalize_segments. f_equal.
  change (from_root segs +:+ "/" +:+ name +:+ "/" +:+ "")
    with (String "/" (String.concat "/" segs +:+ String "/" (name +:+ String "/" ""))).
  cbn [path.split path.isPathSeparator Ascii.eqb Bool.eqb].
  rewrite !split_app_slash. cbn [fold_left].
  rewrite !fold_left_app, fold_left_concat_names by done.
  change (path.normalize_step false [] "") with (@nil string).
  rewrite (split_slash_free name) by by apply is_name_chars.
  change (path.split "") with [""]. cbn [fold_left].
  assert (path.normalize_step false (rev segs ++ []) name = name :: rev segs ++ [])
    as ->.
  { pose proof (is_name_ordinary _ Hname) as Ho.
    unfold path.normalize_step, ordinary_segment in *.
    apply negb_true_iff, orb_false_iff in Ho as [Ho H3].
    by rewrite Ho, H3. }
  change (path.normalize_step false (name :: rev segs ++ []) "")
    with (name :: rev segs ++ []).
  rewrite app_nil_r. cbn [rev]. by rewrite rev_involutive.
Qed.

(** [path.resolve(cwd, d)] for an absolute [d] made of names is [d]. *)
Lemma resolve_to_from_root process_cwd first segs :
  Forall (λ x, is_name x = true) segs →
  path.resolve process_cwd [first; from_root segs] = from_root segs.
Proof.
  intros Hsegs. unfold path.resolve. cbn [rev app path.resolve_go].
  destruct (String.eqb_spec (from_root segs) "") as [He|_]; [done|].
  change (path.isAbsolute (from_root segs)) with true. cbv iota. cbn [negb].
  unfold from_root at 2. f_equal.
  unfold path.normalizeString, path.normalize_segments. f_equal.
  change (from_root segs +:+ "/" +:+ "")
    with (String "/" (String.concat "/" segs +:+ String "/" "")).
  cbn [path.split path.isPathSeparator Ascii.eqb Bool.eqb].
  rewrite split_app_slash. cbn [fold_left].
  rewrite fold_left_app, fold_left_concat_names by done.
  change (path.normalize_step false [] "") with (@nil string).
  change (path.split "") with [""]. cbn [fold_left].
  change (path.normalize_step false (rev segs ++ []) "") with (rev segs ++ []).
  by rewrite app_nil_r, rev_involutive.
Qed.

Lemma list_ascii_of_string_app a b :
  list_ascii_of_string (a +:+ b) = list_ascii_of_string a ++ list_ascii_of_string b.
Proof.
  induction a as [|c a IH]; [done|].
  change (String c a +:+ b) with (String c (a +:+ b)). cbn. by rewrite IH.
Qed.

Lemma dirname_scan_none matchedSlash l :
  forallb (λ c, negb (path.isPathSeparator c)) l = true →
  path.dirname_scan matchedSlash l = None.
Proof.
  revert matchedSlash. induction l as [|c l IH]; intros b; [done|]. cbn.
  intros [Hc Hl]%andb_true_iff. apply negb_true_iff in Hc. rewrite Hc. by apply IH.
Qed.

Lemma dirname_scan_after_name l R :
  forallb (λ c, negb (path.isPathSeparator c)) l = true →
  path.dirname_scan false (l ++ "/"%char :: R) = Some R.
Proof.
  induction l as [|c l IH]; [done|]. cbn.
  intros [Hc Hl]%andb_true_iff. apply negb_true_iff in Hc. rewrite Hc. by apply IH.
Qed.

Lemma concat_snoc segs x name :
  String.concat "/" ((x :: segs) ++ [name])
  = String.concat "/" (x :: segs) +:+ String "/" name.
Proof.
  revert x. induction segs as [|y segs IH]; intros x; [done|].
  change ((x :: y :: segs) ++ [name]) with (x :: ((y :: segs) ++ [name])).
  change ((y :: segs) ++ [name]) with (y :: (segs ++ [name])).
  rewrite !concat_cons_cons.
  change (y :: segs ++ [name]) with ((y :: segs) ++ [name]). rewrite IH.
  generalize (String.concat "/" (y :: segs)). intros t.
  induction x as [|c x IHx]; [done|].
  change (String c x +:+ "/" +:+ t +:+ String "/" name)
    with (String c (x +:+ "/" +:+ t +:+ String "/" name)).
  change ((String c x +:+ "/" +:+ t) +:+ String "/" name)
    with (String c ((x +:+ "/" +:+ t) +:+ String "/" name)).
  by rewrite IHx.
Qed.

(** [path.dirname] of a file in an absolute directory made of names is the
    directory. *)
Lemma dirname_from_root segs name :
  Forall (λ x, is_name x = true) segs → is_name name = true →
  path.dirname (from_root (segs ++ [name])) = from_root segs.
Proof.
  intros Hsegs Hname. pose proof (is_name_chars _ Hname) as Hchars.
  pose proof (is_name_nonempty _ Hname) as Hne.
  unfold path.dirname, from_root.
  change (list_ascii_of_string ("/" +:+ String.concat "/" (segs ++ [name])))
    with ("/"%char :: list_ascii_of_string (String.concat "/" (segs ++ [name]))).
  cbv iota. destruct segs as [|x segs].
  - cbn [app String.concat].
    rewrite dirname_scan_none; [done|].
    rewrite forallb_forall in Hchars |- *. intros c Hc. apply Hchars.
    by apply in_rev.
  - rewrite concat_snoc, list_ascii_of_string_app.
    cbn [list_ascii_of_string]. rewrite rev_app_distr. cbn [rev].
    rewrite <- app_assoc. cbn [app].
    destruct (list_ascii_of_string name) as [|c cs] eqn:Hn.
    { destruct name; done. }
    assert (forallb (λ c, negb (path.isPathSeparator c)) (rev (c :: cs)) = true)
      as Hrev.
    { rewrite forallb_forall in Hchars |- *. intros c' Hc'. apply Hchars.
      by apply in_rev. }
    destruct (rev (c :: cs)) as [|c1 l1] eqn:Hr.
    { apply (f_equal (@length _)) in Hr. rewrite length_rev in Hr. done. }
    cbn [app path.dirname_scan]. cbn in Hrev.
    apply andb_true_iff in Hrev as [Hc1 Hl1]. apply negb_true_iff in Hc1.
    rewrite Hc1, (dirname_scan_after_name _ _ Hl1).
    inversion Hsegs as [|? ? Hx _]; subst.
    destruct (rev (list_ascii_of_string (String.concat "/" (x :: segs))))
      as [|b before] eqn:Hb.
    { apply (f_equal (@length _)) in Hb. rewrite length_rev in Hb.
      destruct x as [|cx x]; [done|]. destruct segs; done. }
    rewrite <- Hb, rev_involutive. cbn [string_of_list_ascii path.isPathSeparator].
    by rewrite string_of_list_ascii_of_string.
Qed.

Lemma prefixes_Forall {A} (P : A → Prop) (l pre : list A) :
  Forall P l → In pre (prefixes l) → Forall P pre.
Proof.
  revert pre. induction l as [|x l IH]; intros pre Hl Hin.
  - destruct Hin as [<-|[]]. done.
  - inversion Hl; subst. destruct Hin as [<-|Hin]; [done|].
    apply in_map_iff in Hin as (pre' & <- & Hpre'). constructor; [done|].
    by apply IH.
Qed.

(** Every directory the search visits is an absolute path made of names. *)
Lemma ancestor_is_from_root w directory d :
  d ∈ ancestor_directories w directory →
  ∃ segs, d = from_root segs ∧ Forall (λ x, is_name x = true) segs.
Proof.
  unfold ancestor_directories. intros Hd. apply list_elem_of_In in Hd.
  apply in_map_iff in Hd as (segs & <- & Hsegs). exists segs. split; [done|].
  apply in_rev in Hsegs.
  eapply prefixes_Forall; [apply normalize_segments_names | exact Hsegs].
Qed.

Lemma candidate_is_name name :
  name ∈ FLAT_CONFIG_FILENAMES → is_name name = true.
Proof.
  intros H. apply list_elem_of_In in H. cbn in H.
  destruct H as [<-|[<-|[<-|[]]]]; reflexivity.
Qed.

(** The base path worked out for a file found in a visited directory is that
    directory. *)
Lemma found_base_path w cwd directory d name :
  d ∈ ancestor_directories w directory →
  name ∈ FLAT_CONFIG_FILENAMES →
  path.resolve (process_cwd w)
    [cwd; path.dirname (path.resolve (process_cwd w) [d; name])] = d.
Proof.
  intros Hd Hname. apply ancestor_is_from_root in Hd as (segs & -> & Hsegs).
  apply candidate_is_name in Hname.
  rewrite resolve_from_root, dirname_from_root by done.
  by apply resolve_to_from_root.
Qed.

(** ** What the search finds *)

Lemma find_first {A} (f : A → bool) (before after : list A) (x : A) :
  (∀ y, y ∈ before → f y = false) → f x = true →
  List.find f (before ++ x :: after) = Some x.
Proof.
  intros Hbefore Hx. induction before as [|y before IH]; cbn; [by rewrite Hx|].
  rewrite (Hbefore y) by apply list_elem_of_here.
  apply IH. intros z Hz. apply Hbefore. by apply list_elem_of_further.
Qed.

Lemma findUp_walk_first w names before d after nb name na :
  names = nb ++ name :: na →
  (∀ d' n, d' ∈ before → n ∈ names →
     is_file w (path.resolve (process_cwd w) [d'; n]) = false) →
  (∀ n, n ∈ nb → is_file w (path.resolve (process_cwd w) [d; n]) = false) →
  is_file w (path.resolve (process_cwd w) [d; name]) = true →
  findUp_walk w names (before ++ d :: after)
  = Some (path.resolve (process_cwd w) [d; name]).
Proof.
  intros -> Hbefore Hnb Hname.
  induction before as [|d' before IH]; cbn [app findUp_walk].
  - unfold locatePath. by rewrite (find_first _ nb na name).
  - unfold locatePath at 1. rewrite find_none.
    + apply IH. intros d'' n Hd''. apply Hbefore. by apply list_elem_of_further.
    + intros n Hn. apply Hbefore; [apply list_elem_of_here|done].
Qed.

Lemma findUp_walk_Some_inv w names directories found :
  findUp_walk w names directories = Some found →
  ∃ d name, d ∈ directories ∧ name ∈ names ∧
            found = path.resolve (process_cwd w) [d; name] ∧
            is_file w found = true.
Proof.
  induction directories as [|d ds IH]; [done|]. cbn.
  destruct (locatePath w names d) as [name|] eqn:Hl.
  - intros [= <-]. unfold locatePath in Hl. apply find_some in Hl as [Hin Hfile].
    exists d, name. split; [apply list_elem_of_here|].
    split; [by apply list_elem_of_In|]. done.
  - intros H. destruct (IH H) as (d' & name & Hd' & Hrest).
    exists d', name. split; [by apply list_elem_of_further|done].
Qed.

(** X12.  With no override path and the config file not disabled, for a
    directory that is not cached yet: when some directory [d] among the
    directory and its ancestors holds a file under one of the candidate
    names, no nearer one holds any candidate, and no earlier name of the
    candidate list is a file in [d], the location resolved is that file, with
    [d] as base path; [findConfigFileForDirectory] returns the file.  So the
    nearest directory wins, and in it [eslint.config.js] wins over
    [eslint.config.mjs], which wins over [eslint.config.cjs]. *)
Theorem X12_nearest_config_file_wins w s D before d after nb name na :
  opt_configFilePath (ConfigLoader.options s.2) = CfgUndefined →
  D ≠ "" →
  ConfigLoader.configFilePaths s.2
    !! absoluteDirPath w (ConfigLoader.options s.2) D = None →
  ancestor_directories w (absoluteDirPath w (ConfigLoader.options s.2) D)
  = before ++ d :: after →
  FLAT_CONFIG_FILENAMES = nb ++ name :: na →
  (∀ d' n, d' ∈ before → n ∈ FLAT_CONFIG_FILENAMES →
     is_file w (path.resolve (process_cwd w) [d'; n]) = false) →
  (∀ n, n ∈ nb → is_file w (path.resolve (process_cwd w) [d; n]) = false) →
  is_file w (path.resolve (process_cwd w) [d; name]) = true →
  (ConfigLoader.locateConfigFileToUse w
     (absoluteDirPath w (ConfigLoader.options s.2) D) s).1
  = Ok (mkLocation (Some (path.resolve (process_cwd w) [d; name])) d) ∧
  (ConfigLoader.findConfigFileForDirectory w D s).1
  = Ok (Some (path.resolve (process_cwd w) [d; name])).
Proof.
  intros Hopt HD Hmiss Hanc Hnames Hbefore Hnb Hfile.
  set (k := absoluteDirPath w (ConfigLoader.options s.2) D) in *.
  assert (fresh_location w (ConfigLoader.options s.2) k
          = Ok (mkLocation (Some (path.resolve (process_cwd w) [d; name])) d))
    as Hfresh.
  { unfold fresh_location. rewrite Hopt. cbv zeta. rewrite Hanc.
    rewrite (findUp_walk_first w _ before d after nb name na) by done.
    rewrite nonempty_path_Some by apply resolve_nonempty.
    rewrite (found_base_path w _ k d name); [done| |].
    - rewrite Hanc. apply elem_of_app. right. apply list_elem_of_here.
    - rewrite Hnames. apply elem_of_app. right. apply list_elem_of_here. }
  assert ((ConfigLoader.locateConfigFileToUse w k s).1
          = Ok (mkLocation (Some (path.resolve (process_cwd w) [d; name])) d))
    as Hl by (by rewrite (locate_miss _ _ _ Hmiss), Hfresh).
  split; [done|].
  rewrite (find_unfold _ _ _ HD). fold k.
  destruct (ConfigLoader.locateConfigFileToUse w k s) as [[loc|e] s']; cbn in *;
    by simplify_eq.
Qed.

(** X12 on the nested project, from [/proj/sub/lib]: [/proj/sub] is nearer
    than [/proj], and of the two candidates it holds [eslint.config.mjs]
    comes first. *)
Lemma X12_nearest_config_file_wins_witness :
  (ConfigLoader.findConfigFileForDirectory nested_world "/proj/sub/lib"
     (fresh_state (project_options CfgUndefined))).1
  = Ok (Some "/proj/sub/eslint.config.mjs") ∧
  (ConfigLoader.locateConfigFileToUse nested_world "/proj/sub/lib"
     (fresh_state (project_options CfgUndefined))).1
  = Ok (mkLocation (Some "/proj/sub/eslint.config.mjs") "/proj/sub").
Proof.
  destruct (X12_nearest_config_file_wins nested_world
              (fresh_state (project_options CfgUndefined)) "/proj/sub/lib"
              ["/proj/sub/lib"] "/proj/sub" ["/proj"; "/"]
              ["eslint.config.js"] "eslint.config.mjs" ["eslint.config.cjs"])
    as (Hloc & Hfind).
  - reflexivity.
  - discriminate.
  - reflexivity.
  - reflexivity.
  - reflexivity.
  - intros d' n Hd' Hn. apply list_elem_of_In in Hd', Hn. cbn in Hd', Hn.
    destruct Hd' as [<-|[]]. destruct Hn as [<-|[<-|[<-|[]]]]; reflexivity.
  - intros n Hn. apply list_elem_of_In in Hn. cbn in Hn.
    destruct Hn as [<-|[]]. reflexivity.
  - reflexivity.
  - split; [exact Hfind | exact Hloc].
Defined.

(** X13.  With no override path and the config file not disabled, whatever
    location is resolved for a directory that is not cached yet names an
    existing regular file: the file is in the directory or in one of its
    ancestors, under one of the three candidate names, and the base path is
    the directory that holds it. *)
Theorem X13_found_file_exists w s k location :
  opt_configFilePath (ConfigLoader.options s.2) = CfgUndefined →
  ConfigLoader.configFilePaths s.2 !! k = None →
  (ConfigLoader.locateConfigFileToUse w k s).1 = Ok location →
  ∃ d name,
    d ∈ ancestor_directories w k ∧
    name ∈ FLAT_CONFIG_FILENAMES ∧
    location = mkLocation (Some (path.resolve (process_cwd w) [d; name])) d ∧
    is_file w (path.resolve (process_cwd w) [d; name]) = true.
Proof.
  intros Hopt Hmiss. rewrite (locate_miss _ _ _ Hmiss).
  unfold fresh_location. rewrite Hopt. cbv zeta.
  destruct (findUp_walk w FLAT_CONFIG_FILENAMES (ancestor_directories w k))
    as [found|] eqn:Hwalk; [|done].
  destruct (findUp_walk_Some_inv _ _ _ _ Hwalk) as (d & name & Hd & Hname & -> & Hfile).
  rewrite nonempty_path_Some by apply resolve_nonempty.
  rewrite (found_base_path w _ k d name) by done.
  intros [= <-]. by exists d, name.
Qed.

(** X13 on the project, from [/proj/sub]. *)
Lemma X13_found_file_exists_witness :
  let s := fresh_state (project_options CfgUndefined) in
  let w := project_world "/" in
  opt_configFilePath (ConfigLoader.options s.2) = CfgUndefined ∧
  ConfigLoader.configFilePaths s.2 !! "/proj/sub" = None ∧
  (ConfigLoader.locateConfigFileToUse w "/proj/sub" s).1
  = Ok (mkLocation (Some "/proj/eslint.config.js") "/proj") ∧
  ∃ d name,
    d ∈ ancestor_directories w "/proj/sub" ∧
    name ∈ FLAT_CONFIG_FILENAMES ∧
    mkLocation (Some "/proj/eslint.config.js") "/proj"
    = mkLocation (Some (path.resolve (process_cwd w) [d; name])) d ∧
    is_file w (path.resolve (process_cwd w) [d; name]) = true.
Proof.
  cbv zeta. split; [reflexivity|]. split; [reflexivity|].
  split; [reflexivity|].
  exact (X13_found_file_exists (project_world "/")
           (fresh_state (project_options CfgUndefined)) "/proj/sub" _
           eq_refl eq_refl eq_refl).
Defined.

(** ** One array for every directory when nothing is searched *)

Lemma fresh_location_no_search w w' options k k' location :
  opt_configFilePath options ≠ CfgUndefined →
  process_cwd w' = process_cwd w →
  fresh_location w options k = Ok location →
  fresh_location w' options k' = Ok location.
Proof.
  unfold fresh_location. intros Hopt ->.
  by destruct (opt_configFilePath options).
Qed.

Lemma fresh_location_no_search_ok w options k :
  opt_configFilePath options ≠ CfgUndefined →
  ∃ location, fresh_location w options k = Ok location.
Proof.
  unfold fresh_location. intros Hopt.
  destruct (opt_configFilePath options); [eauto|eauto|done].
Qed.

Lemma locate_no_search w k s :
  opt_configFilePath (ConfigLoader.options s.2) ≠ CfgUndefined →
  (ConfigLoader.locateConfigFileToUse w k s).2.1 = s.1.
Proof.
  intros Hopt.
  destruct (ConfigLoader.configFilePaths s.2 !! k) as [cached|] eqn:Hk.
  - by rewrite (locate_cached _ _ _ _ Hk).
  - rewrite (locate_miss _ _ _ Hk). unfold searched.
    destruct (fresh_location w _ k);
      by destruct (opt_configFilePath (ConfigLoader.options s.2)).
Qed.

(** X14.  With an override path, or with the config file disabled, an
    instance holds one array for all directories: once
    [loadConfigArrayForDirectory] has returned an array, a load for any
    other non-empty directory returns that array, builds nothing and leaves
    the process as it was (not even a search is made). *)
Theorem X14_one_array_without_search options g0 h w1 w2 D1 D2 s1 configs :
  opt_configFilePath options ≠ CfgUndefined →
  Forall (λ wc : World * Call, process_cwd wc.1 = process_cwd w1) h →
  process_cwd w2 = process_cwd w1 →
  D2 ≠ "" →
  ConfigLoader.loadConfigArrayForDirectory w1 D1
    (run h (g0, ConfigLoader.new options)) = (Ok configs, s1) →
  ∃ s2,
    ConfigLoader.loadConfigArrayForDirectory w2 D2 s1 = (Ok configs, s2) ∧
    s2.1 = s1.1 ∧
    ConfigLoader.configArrays s2.2 = ConfigLoader.configArrays s1.2.
Proof.
  intros Hopt Hall Hcwd HD2 Hload.
  set (s := run h (g0, ConfigLoader.new options)) in *.
  destruct (fresh_location_no_search_ok w1 options "" Hopt) as (location & Hfresh).
  destruct (cache_invariant_run options (λ w', process_cwd w' = process_cwd w1)
              (λ _ loc, loc = location) (λ _, True)) with (h := h) (g0 := g0)
    as (Ho & Hq & _); [| done | done |].
  { intros w' k loc Hw' Hk.
    rewrite (fresh_location_no_search _ _ _ _ k _ Hopt Hw' Hfresh) in Hk.
    by injection Hk as <-. }
  fold s in Ho, Hq.
  pose proof (load_ok_nonempty _ _ _ _ _ Hload) as HD1.
  rewrite (load_unfold _ _ _ HD1) in Hload.
  destruct (ConfigLoader.locateConfigFileToUse w1 _ s) as [[loc1|e1] s'] eqn:Hl1;
    [|done].
  assert (loc1 = location) as ->.
  { destruct (ConfigLoader.configFilePaths s.2 !! absoluteDirPath w1
                (ConfigLoader.options s.2) D1) as [cached|] eqn:Hk.
    - rewrite (locate_cached _ _ _ _ Hk) in Hl1. injection Hl1 as <- <-.
      by apply (Hq _ _ Hk).
    - rewrite (locate_miss _ _ _ Hk), Ho in Hl1.
      rewrite (fresh_location_no_search _ _ _ _ _ _ Hopt eq_refl Hfresh) in Hl1.
      by injection Hl1 as <- _. }
  destruct (locate_ok_inv _ _ _ _ _ Hl1) as (Hk1 & _ & Ho1 & _ & Hother1).
  destruct (build_ok_inv _ _ _ _ _ _ Hload) as (Ha & Hpaths & Ho' & _).
  assert (∀ k cached, ConfigLoader.configFilePaths s1.2 !! k = Some cached →
                      cached = location) as Hq1.
  { intros k cached. rewrite Hpaths.
    destruct (decide (k = absoluteDirPath w1 (ConfigLoader.options s.2) D1))
      as [->|Hne]; [rewrite Hk1; by intros [= <-]|].
    rewrite Hother1 by done. apply Hq. }
  assert (ConfigLoader.options s1.2 = options) as Hopts1 by congruence.
  rewrite (load_unfold _ _ _ HD2).
  pose proof (locate_no_search w2
                (absoluteDirPath w2 (ConfigLoader.options s1.2) D2) s1) as Hproc.
  rewrite Hopts1 in Hproc. specialize (Hproc Hopt).
  pose proof (locate_constant w2
                (absoluteDirPath w2 (ConfigLoader.options s1.2) D2) s1 location)
    as Hl2.
  rewrite Hopts1 in Hl2.
  specialize (Hl2 (Hq1 _)
                (fresh_location_no_search _ _ _ _ _ _ Hopt Hcwd Hfresh)).
  rewrite Hopts1.
  destruct (ConfigLoader.locateConfigFileToUse w2 _ s1) as [[loc2|e2] s1'] eqn:Hl2';
    cbn [fst snd] in *; [|done].
  injection Hl2 as ->.
  destruct (locate_ok_inv _ _ _ _ _ Hl2') as (_ & Harr & _).
  rewrite <- Harr in Ha. rewrite (build_cached _ _ _ _ _ Ha).
  exists s1'. by repeat split.
Qed.

(** X14 with an override path: a load for [/proj], then one for a directory
    outside the project. *)
Lemma X14_one_array_without_search_witness :
  let options := project_options (CfgPath "../eslint.config.js") in
  let w := project_world "/" in
  let r := ConfigLoader.loadConfigArrayForDirectory w "/proj" (fresh_state options) in
  opt_configFilePath options ≠ CfgUndefined ∧
  is_ok r.1 = true ∧
  "/elsewhere" ≠ "" ∧
  (ConfigLoader.loadConfigArrayForDirectory w "/elsewhere" r.2).1 = r.1.
Proof.
  cbv zeta.
  destruct (ConfigLoader.loadConfigArrayForDirectory (project_world "/") "/proj"
              (fresh_state (project_options (CfgPath "../eslint.config.js"))))
    as [[configs|e] s1] eqn:Hload; [|by vm_compute in Hload].
  split; [discriminate|]. split; [reflexivity|]. split; [discriminate|].
  destruct (X14_one_array_without_search
              (project_options (CfgPath "../eslint.config.js")) initial_process []
              (project_world "/") (project_world "/") "/proj" "/elsewhere" s1 configs
              ltac:(discriminate) ltac:(constructor) eq_refl ltac:(discriminate)
              Hload) as (s2 & Hagain & _).
  cbn [fst snd]. by rewrite Hagain.
Defined.

(** ** A second instance in the same process *)

Lemma normalize_unfold w configs g :
  normalize w configs g =
  match normalize_items w (fca_basePath configs) (fca_items configs) with
  | Ok items =>
      (Ok (mkFlatConfigArray (fca_id configs) (fca_basePath configs)
             (fca_shouldIgnore configs) items true),
       add_event (EvNormalize (fca_id configs)) g)
  | Throw e => (Throw e, add_event (EvNormalize (fca_id configs)) g)
  end.
Proof.
  unfold normalize. unfold_m. by destruct (normalize_items w _ _).
Qed.

Lemma loadConfigFile_next_id w filePath g :
  next_id (loadConfigFile w filePath g).2 = next_id g.
Proof.
  unfold loadConfigFile, fs_stat, import_default. unfold_m. unfold add_event.
  destruct g as [mt rc ic n tr]. cbn.
  repeat (case_match; simplify_eq/=; try done).
Qed.

(** A build that succeeded succeeds again from any later process with the
    same module state: the module is not executed, the array is a new
    object with the same contents. *)
Lemma calculateConfigArray_again w configFilePath basePath options g g1 a1 g' :
  calculateConfigArray w configFilePath basePath options g = (Ok a1, g1) →
  importedConfigFileModificationTime g' = importedConfigFileModificationTime g1 →
  import_cache g' = import_cache g1 →
  next_id g' = next_id g1 →
  ∃ a2 g2,
    calculateConfigArray w configFilePath basePath options g' = (Ok a2, g2) ∧
    fca_items a2 = fca_items a1 ∧ fca_basePath a2 = fca_basePath a1 ∧
    fca_id a2 ≠ fca_id a1 ∧
    evaluations g2 = evaluations g' ∧ builds g2 = S (builds g').
Proof.
  intros Hcalc Hmt Hic Hid. rewrite calculateConfigArray_unfold in Hcalc |- *.
  destruct (nonempty_path configFilePath) as [p|].
  - destruct (loadConfigFile w p (after_new g)) as [[v|e] gl] eqn:Hload; [|done].
    pose proof (loadConfigFile_next_id w p (after_new g)) as Hidl.
    rewrite Hload in Hidl. cbn [snd after_new next_id] in Hidl.
    destruct (loadConfigFile_ok_inv _ _ _ _ _ Hload) as (m & Hstat & Hseen & Hurl).
    rewrite normalize_unfold in Hcalc. cbn [assembled fca_basePath fca_items fca_id] in Hcalc.
    destruct (normalize_items w basePath _) as [items|e] eqn:Hnorm; [|done].
    injection Hcalc as <- <-.
    cbn [add_event importedConfigFileModificationTime import_cache next_id] in Hmt, Hic, Hid.
    rewrite (loadConfigFile_unchanged w p m (after_new g') v);
      [|done|cbn; by rewrite Hmt|cbn; by rewrite Hic].
    rewrite normalize_unfold. cbn [assembled fca_basePath fca_items fca_id].
    rewrite Hnorm. eexists _, _. split; [done|]. cbn.
    repeat split; [lia|done..].
  - rewrite normalize_unfold in Hcalc |- *.
    cbn [assembled fca_basePath fca_items fca_id] in Hcalc |- *.
    destruct (normalize_items w basePath _) as [items|e] eqn:Hnorm; [|done].
    injection Hcalc as <- <-.
    cbn [add_event after_new next_id] in Hid.
    eexists _, _. split; [done|]. cbn. repeat split; [lia|done..].
Qed.

Lemma searched_fields options k g :
  importedConfigFileModificationTime (searched options k g)
  = importedConfigFileModificationTime g ∧
  import_cache (searched options k g) = import_cache g ∧
  next_id (searched options k g) = next_id g ∧
  evaluations (searched options k g) = evaluations g ∧
  builds (searched options k g) = builds g.
Proof. unfold searched. by destruct (opt_configFilePath options). Qed.

(** X15.  When a new instance has loaded the array of a directory, another
    new instance with the same options, used next in the same process and
    with the world unchanged, loads an array with the same contents for that
    directory: it builds a new object of its own, and the config module is
    not executed a second time. *)
Theorem X15_second_instance_reuses_the_module w options D g0 s1 a1 :
  ConfigLoader.loadConfigArrayForDirectory w D (g0, ConfigLoader.new options)
  = (Ok a1, s1) →
  ∃ a2 s2,
    ConfigLoader.loadConfigArrayForDirectory w D (s1.1, ConfigLoader.new options)
    = (Ok a2, s2) ∧
    fca_items a2 = fca_items a1 ∧
    fca_basePath a2 = fca_basePath a1 ∧
    fca_id a2 ≠ fca_id a1 ∧
    evaluations s2.1 = evaluations s1.1 ∧
    builds s2.1 = S (builds s1.1).
Proof.
  intros Hload. pose proof (load_ok_nonempty _ _ _ _ _ Hload) as HD.
  rewrite (load_unfold _ _ _ HD) in Hload. rewrite (load_unfold _ _ _ HD).
  cbn [snd fst ConfigLoader.new ConfigLoader.options] in *.
  set (k := absoluteDirPath w options D) in *.
  rewrite locate_miss in Hload by apply lookup_empty.
  rewrite locate_miss by apply lookup_empty.
  cbn [snd fst ConfigLoader.new ConfigLoader.options ConfigLoader.configArrays
       ConfigLoader.configFilePaths] in *.
  destruct (fresh_location w options k) as [loc|e]; [|done].
  rewrite build_miss in Hload by apply lookup_empty.
  rewrite build_miss by apply lookup_empty.
  cbn [snd fst ConfigLoader.options ConfigLoader.configArrays
       ConfigLoader.configFilePaths] in *.
  destruct (calculateConfigArray w _ _ options (searched options k g0))
    as [[c1|e] g1] eqn:Hcalc; [|done].
  injection Hload as <- <-. cbn [fst].
  destruct (searched_fields options k g1) as (Hmt & Hic & Hid & Hev & Hb).
  destruct (calculateConfigArray_again _ _ _ _ _ _ _ (searched options k g1)
              Hcalc Hmt Hic Hid) as (a2 & g2 & Hcalc2 & Hitems & Hbase & Hne & Hev2 & Hb2).
  rewrite Hcalc2. eexists _, _. split; [done|]. cbn [fst snd].
  repeat split; [done..|congruence|congruence].
Qed.

(** X15 on the project. *)
Lemma X15_second_instance_reuses_the_module_witness :
  let w := project_world "/" in
  let options := project_options CfgUndefined in
  let r1 := ConfigLoader.loadConfigArrayForDirectory w "/proj"
              (initial_process, ConfigLoader.new options) in
  let r2 := ConfigLoader.loadConfigArrayForDirectory w "/proj"
              (r1.2.1, ConfigLoader.new options) in
  r1.1 = Ok project_array ∧
  ∃ a2, r2.1 = Ok a2 ∧ fca_items a2 = fca_items project_array ∧
        fca_id a2 ≠ fca_id project_array ∧
        evaluations r2.2.1 = evaluations r1.2.1.
Proof.
  cbv zeta.
  assert (ConfigLoader.loadConfigArrayForDirectory (project_world "/") "/proj"
            (initial_process, ConfigLoader.new (project_options CfgUndefined))
          = (Ok project_array,
             (ConfigLoader.loadConfigArrayForDirectory (project_world "/") "/proj"
                (initial_process,
                 ConfigLoader.new (project_options CfgUndefined))).2))
    as Hload by (vm_compute; reflexivity).
  split; [by rewrite Hload|].
  destruct (X15_second_instance_reuses_the_module _ _ _ _ _ _ Hload)
    as (a2 & s2 & Hload2 & Hitems & _ & Hid & Hev & _).
  exists a2. rewrite Hload2. by repeat split.
Defined.

(** ** A module that failed to load *)

(** X16.  When [loadConfigFile] has thrown for a file that [fs.stat] could
    read, loading the file again while its modification time is the same
    throws the same error: the import of the same URL is replayed from the
    import cache, the file is not executed again, whatever it would give
    now, and no time is recorded.  So a config file that failed to load
    keeps failing in the process until its modification time changes. *)
Theorem X16_failed_import_is_replayed w1 w2 filePath mtime g0 g1 e :
  stat_mtime w1 filePath = Ok mtime →
  loadConfigFile w1 filePath g0 = (Throw e, g1) →
  stat_mtime w2 filePath = Ok mtime →
  (loadConfigFile w2 filePath g1).1 = Throw e ∧
  evaluations (loadConfigFile w2 filePath g1).2 = evaluations g1 ∧
  importedConfigFileModificationTime (loadConfigFile w2 filePath g1).2
  = importedConfigFileModificationTime g1 ∧
  import_cache (loadConfigFile w2 filePath g1).2 = import_cache g1.
Proof.
  intros Hstat1 Hload Hstat2.
  pose proof (loadConfigFile_throw_inv _ _ _ _ _ _ Hstat1 Hload) as Hurl.
  rewrite loadConfigFile_unfold, Hstat2. cbv zeta.
  destruct (decide (_ = Some mtime)) as [_|_].
  - by rewrite (import_default_cached _ _ _ _ (Throw e)).
  - by rewrite (import_default_cached _ _ _ _ (Throw e)).
Qed.

(** X16 for the config file of the project, which throws when first
    executed and is sound, at the same modification time, when loaded
    again. *)
Lemma X16_failed_import_is_replayed_witness :
  let p := "/proj/eslint.config.js" in
  let e := Error "SyntaxError: Unexpected token" in
  let g1 := (loadConfigFile (broken_world "/") p initial_process).2 in
  stat_mtime (broken_world "/") p = Ok 100%Z ∧
  loadConfigFile (broken_world "/") p initial_process = (Throw e, g1) ∧
  stat_mtime (project_world "/") p = Ok 100%Z ∧
  is_ok (evaluate (project_world "/") p) = true ∧
  (loadConfigFile (project_world "/") p g1).1 = Throw e.
Proof.
  cbv zeta.
  assert (loadConfigFile (broken_world "/") "/proj/eslint.config.js" initial_process
          = (Throw (Error "SyntaxError: Unexpected token"),
             (loadConfigFile (broken_world "/") "/proj/eslint.config.js"
                initial_process).2))
    as Hload by (vm_compute; reflexivity).
  split; [reflexivity|]. split; [exact Hload|]. split; [reflexivity|].
  split; [reflexivity|].
  exact (proj1 (X16_failed_import_is_replayed (broken_world "/") (project_world "/")
                  "/proj/eslint.config.js" 100%Z _ _ _ eq_refl Hload eq_refl)).
Defined.
